(** * pure-react-lazyload: the [useElementOnScreen] hook

    A shallow embedding of [src/index.js].  The hook keeps a ref to an
    element, creates an [IntersectionObserver] for it inside a React
    effect, turns the observer's callbacks into the [isVisible] state and
    returns an effect cleanup.

    The file has four layers:
    - [JS]: the JavaScript values the hook handles (option objects and
      the object pattern with defaults and a rest element);
    - [Hook]: the hook's own functions, one definition per source
      function, over an explicit world (ref cell, state cell, the
      platform's observers, the console, the platform calls made), on a
      platform that accepts the options it is given;
    - [Life]: the events that call the hook's functions, one after the
      other, with every commit running the effect;
    - [Host]: the same events under the host's own rules: the
      dependency list [[ref, options]] decides whether a render runs the
      effect, the browser may reject the options, and React unmounts an
      instance once an exception has reached it.
    The theorems follow the definitions. *)

From Stdlib Require Import QArith.
From stdpp Require Import base option gmap strings list.

Set Warnings "-register-all".
Open Scope string_scope.

(** ** JavaScript values and objects *)

Module JS.

(** DOM elements are opaque handles. *)
Definition elem := nat.

(** The values an options object can hold.  An object is a finite map
    from property names to values; reading a missing property gives
    [undefined]. *)
Inductive value : Type :=
| VUndefined
| VNull
| VBool (b : bool)
| VNum (q : Q)
| VStr (s : string)
| VElem (e : elem)
| VObj (o : gmap string value).

Abbreviation obj := (gmap string value).

(** [o.k] *)
Definition get (o : obj) (k : string) : value :=
  default VUndefined (o !! k).

(** A property of an object pattern with a default, [{ k = d }]: the
    default is taken when the value read is [undefined]. *)
Definition or_default (d : value) (v : value) : value :=
  match v with
  | VUndefined => d
  | _ => v
  end.

(** The rest element of an object pattern, [{ k1, ..., kn, ...rest }]:
    a fresh object with the own properties of [o] whose keys were not
    taken by the pattern. *)
Definition rest_of (taken : list string) (o : obj) : obj :=
  foldr delete o taken.

(** A property counts as absent when reading it gives [undefined]. *)
Definition absent (o : obj) (k : string) : Prop := get o k = VUndefined.

(** Errors a JavaScript function can throw here. *)
Inductive error : Type :=
| ReferenceError (name : string)
| TypeError (msg : string)
| RangeError (msg : string)
| SyntaxError (msg : string).

(** Completion of a call: normal, or an exception. *)
Inductive result (A : Type) : Type :=
| Ok (a : A)
| Throw (e : error).
Arguments Ok {A} a.
Arguments Throw {A} e.

End JS.

(** ** The hook's functions *)

Module Hook.
Import JS.

(** An [IntersectionObserverEntry]; the hook reads [isIntersecting]
    only. *)
Record entry : Type := { isIntersecting : bool }.

(** An [IntersectionObserver] as the platform holds it: the options it
    was created with and the elements it observes. *)
Record observer : Type := {
  obs_options : obj;
  obs_targets : list elem
}.

(** The calls made on the platform's observation service, with the
    handle of the observer (its index in [observers]). *)
Inductive call : Type :=
| New (options : obj)
| Observe (o : nat) (el : elem)
| Unobserve (o : nat) (el : elem).

(** Identifiers in scope that are bound to an observer. *)
Abbreviation env := (gmap string nat).

(** What one hook instance can read and write.
    - [ref_current] is [ref.current], [None] for [null];
    - [isVisible] is the state cell of [useState];
    - [observers] are the observers created so far, oldest first;
    - [console] holds the [console.warn] messages, oldest first;
    - [calls] holds the platform calls, oldest first;
    - [globals] are the identifiers of the global object that name an
      observer (a browser defines none). *)
Record world : Type := {
  ref_current : option elem;
  isVisible : bool;
  observers : list observer;
  console : list string;
  calls : list call;
  globals : env
}.

(** [useRef(null)] and [useState(false)] at the first render, nothing
    created or logged yet. *)
Definition initial (g : env) : world :=
  {| ref_current := None; isVisible := false; observers := [];
     console := []; calls := []; globals := g |}.

Definition set_ref (r : option elem) (w : world) : world :=
  {| ref_current := r; isVisible := isVisible w; observers := observers w;
     console := console w; calls := calls w; globals := globals w |}.

(** [setIsVisible(b)] *)
Definition setIsVisible (b : bool) (w : world) : world :=
  {| ref_current := ref_current w; isVisible := b; observers := observers w;
     console := console w; calls := calls w; globals := globals w |}.

(** [console.warn(msg)] *)
Definition console_warn (msg : string) (w : world) : world :=
  {| ref_current := ref_current w; isVisible := isVisible w;
     observers := observers w; console := console w ++ [msg];
     calls := calls w; globals := globals w |}.

Definition with_platform (obs : list observer) (c : call) (w : world) : world :=
  {| ref_current := ref_current w; isVisible := isVisible w;
     observers := obs; console := console w;
     calls := calls w ++ [c]; globals := globals w |}.

(** [new IntersectionObserver(callbackFunction, options)] when the
    platform accepts [options]: a new observer with no target; its handle
    is returned.  Every observer of a hook instance is created with that
    instance's [callbackFunction].  The constructor's own checks, which
    can make it throw instead, are in [Host.effect_in]. *)
Definition new_IntersectionObserver (options : obj) (w : world) : nat * world :=
  (length (observers w),
   with_platform
     (observers w ++ [{| obs_options := options; obs_targets := [] |}])
     (New options) w).

Definition add_target (el : elem) (ob : observer) : observer :=
  {| obs_options := obs_options ob;
     obs_targets := if bool_decide (el ∈ obs_targets ob) then obs_targets ob
                    else obs_targets ob ++ [el] |}.

Definition remove_target (el : elem) (ob : observer) : observer :=
  {| obs_options := obs_options ob;
     obs_targets := filter (λ x, x ≠ el) (obs_targets ob) |}.

(** [o.observe(el)] *)
Definition observe (o : nat) (el : elem) (w : world) : world :=
  with_platform (alter (add_target el) o (observers w)) (Observe o el) w.

(** [o.unobserve(el)] *)
Definition unobserve (o : nat) (el : elem) (w : world) : world :=
  with_platform (alter (remove_target el) o (observers w)) (Unobserve o el) w.

(** Lines 27-34.
[[
  const callbackFunction = entries => {
    const [entry] = entries;
    if (entry) {
      setIsVisible(entry.isIntersecting);
    } else {
      console.warn('useElementOnScreen: entry not provided');
    }
  }
]]
    An entry is an object, hence truthy; [entry] is [undefined] exactly
    when the array is empty. *)
Definition callbackFunction (entries : list entry) (w : world) : result world :=
  match entries with
  | entry :: _ => Ok (setIsVisible (isIntersecting entry) w)
  | [] => Ok (console_warn "useElementOnScreen: entry not provided" w)
  end.

(** Lines 38-43 and the object literal of line 47.
[[
  const { root = null, rootMargin = '0px', threshold = 0.75, ...rest } = options;
  ... { root, rootMargin, threshold, rest }
]] *)
Definition observer_options (options : obj) : obj :=
  let root := or_default VNull (get options "root") in
  let rootMargin := or_default (VStr "0px") (get options "rootMargin") in
  let threshold := or_default (VNum (Qmake 3 4)) (get options "threshold") in
  let rest := rest_of ["root"; "rootMargin"; "threshold"] options in
  <["root" := root]> (<["rootMargin" := rootMargin]>
    (<["threshold" := threshold]> {["rest" := VObj rest]})).

(** Lines 54-60, the function the effect returns.
[[
  return () => {
    if (ref.current) {
      observer.unobserve(ref.current);
    } else {
      console.warn('useElementOnScreen: no ref.current found');
    }
  }
]]
    [ρ] is the scope the arrow function was created in.  Reading an
    identifier that no enclosing scope binds throws a ReferenceError. *)
Definition cleanup (ρ : env) (w : world) : result world :=
  match ref_current w with
  | Some el =>
      match ρ !! "observer" with
      | Some observer => Ok (unobserve observer el w)
      | None => Throw (ReferenceError "observer")
      end
  | None => Ok (console_warn "useElementOnScreen: no ref.current found" w)
  end.

(** Lines 36-61, the function given to [useEffect].
[[
  if (ref.current) {
    const observer = new IntersectionObserver(callbackFunction, { ... });
    observer.observe(ref.current);
  } else {
    console.warn('useElementOnScreen: no ref.current found');
  }
  return () => { ... }
]]
    [const observer] is declared inside the block of the [if]: the
    binding exists in [block] only.  The returned arrow function is
    created in the function body, outside that block, so it closes over
    [ρ], where the enclosing scopes (effect body, hook body, module) bind
    no [observer] and only the global object is left. *)
Definition effect (options : obj) (w : world) : result (world * env) :=
  let ρ := globals w in
  let w' :=
    match ref_current w with
    | Some el =>
        let '(o, w1) := new_IntersectionObserver (observer_options options) w in
        let block := <["observer" := o]> ρ in
        match block !! "observer" with
        | Some observer => observe observer el w1
        | None => w1
        end
    | None => console_warn "useElementOnScreen: no ref.current found" w
    end in
  Ok (w', ρ).

(** What a call of the hook gives: the returned array [[ref, isVisible]]
    (the ref shown by the content of its cell) and the effect handed to
    [useEffect]. *)
Record rendered : Type := {
  ret_ref : option elem;
  ret_isVisible : bool;
  the_effect : world → result (world * env)
}.

(** Lines 18-64.  [arg] is the argument of the call, [None] when it is
    omitted; the default parameter [options = {}] then applies. *)
Definition useElementOnScreen (arg : option obj) (w : world) : rendered :=
  let options := default ∅ arg in
  {| ret_ref := ref_current w;
     ret_isVisible := isVisible w;
     the_effect := effect options |}.

(** *** Vocabulary of the statements *)

(** The warning of the effect and of its cleanup. *)
Definition no_ref_warning : string := "useElementOnScreen: no ref.current found".

(** The value bound by [{ k = d }]: the default when [k] is absent,
    the property otherwise. *)
Definition bound_by (d : value) (options : obj) (k : string) (v : value) : Prop :=
  (absent options k → v = d) ∧ (¬ absent options k → v = get options k).

(** The tracker is unbound while no observer has been created. *)
Definition unbound (w : world) : Prop := observers w = [].

(** The options object built from an empty configuration. *)
Definition default_observer_options : obj :=
  <["root" := VNull]> (<["rootMargin" := VStr "0px"]>
    (<["threshold" := VNum (Qmake 3 4)]> {["rest" := VObj ∅]})).

End Hook.

(** ** The host: React and the browser *)

Module Life.
Import JS Hook.

(** A mounted hook instance: its world, the cleanup returned by the last
    effect run (kept as the scope it closes over) and the exceptions
    that reached the host, oldest first. *)
Record state : Type := {
  now : world;
  pending : option env;
  raised : list error
}.

Definition start (g : env) : state :=
  {| now := initial g; pending := None; raised := [] |}.

(** What can happen to a mounted instance.
    - [SetRef r]: the host assigns [ref.current] (React attaches or
      detaches the element the consumer put the ref on);
    - [Commit arg]: a render calling the hook with [arg] is committed and
      its dependency list [[ref, options]] differs from the previous
      one (always so at the first render): React calls the previous
      effect's cleanup, if there is one, and then the new effect;
    - [Unmount]: the consumer is torn down, React calls the cleanup;
    - [Deliver o entries]: the browser reports [entries] to observer
      [o]. *)
Inductive event : Type :=
| SetRef (r : option elem)
| Commit (arg : option obj)
| Unmount
| Deliver (o : nat) (entries : list entry).

(** React (17 and later) calls each cleanup inside a try block: an
    exception is reported to the host and the commit goes on with the
    effects that are due. *)
Definition run_cleanup (s : state) : state :=
  match pending s with
  | None => s
  | Some ρ =>
      match cleanup ρ (now s) with
      | Ok w => {| now := w; pending := None; raised := raised s |}
      | Throw e => {| now := now s; pending := None; raised := raised s ++ [e] |}
      end
  end.

Definition run_effect (arg : option obj) (s : state) : state :=
  match the_effect (useElementOnScreen arg (now s)) (now s) with
  | Ok (w, ρ) => {| now := w; pending := Some ρ; raised := raised s |}
  | Throw e => {| now := now s; pending := None; raised := raised s ++ [e] |}
  end.

(** An observer is active while it observes some element; the browser
    calls back active observers only. *)
Definition is_active (ob : observer) : bool :=
  match obs_targets ob with
  | [] => false
  | _ :: _ => true
  end.

Definition serves (o : nat) (w : world) : bool :=
  match observers w !! o with
  | Some ob => is_active ob
  | None => false
  end.

Definition run_callback (entries : list entry) (s : state) : state :=
  match callbackFunction entries (now s) with
  | Ok w => {| now := w; pending := pending s; raised := raised s |}
  | Throw e => {| now := now s; pending := pending s; raised := raised s ++ [e] |}
  end.

Definition step (s : state) (ev : event) : state :=
  match ev with
  | SetRef r => {| now := set_ref r (now s); pending := pending s; raised := raised s |}
  | Commit arg => run_effect arg (run_cleanup s)
  | Unmount => run_cleanup s
  | Deliver o entries => if serves o (now s) then run_callback entries s else s
  end.

Definition run (evs : list event) (s : state) : state := foldl step s evs.

(** The observers that are active, by handle. *)
Definition active_observers (w : world) : list nat :=
  filter (λ o, serves o w = true) (seq 0 (length (observers w))).

(** The calls that release an observer. *)
Definition is_release (c : call) : bool :=
  match c with
  | Unobserve _ _ => true
  | _ => false
  end.

Definition releases (w : world) : nat := length (filter (λ c, is_release c = true) (calls w)).

(** No event assigns an element to the ref. *)
Definition never_attached (evs : list event) : bool :=
  forallb (λ ev, match ev with SetRef (Some _) => false | _ => true end) evs.

(** No event is a delivery. *)
Definition no_delivery (evs : list event) : bool :=
  forallb (λ ev, match ev with Deliver _ _ => false | _ => true end) evs.

(** The scope of the pending cleanup and the global object bind no
    [observer]. *)
Definition observer_unbound (s : state) : Prop :=
  globals (now s) !! "observer" = None ∧
  ∀ ρ, pending s = Some ρ → ρ !! "observer" = None.

(** *** Vocabulary of the lifetime statements *)

(** The warning of the callback. *)
Definition no_entry_warning : string := "useElementOnScreen: entry not provided".

(** The observer an effect creates for the argument [arg] of the render
    when [el] is attached. *)
Definition observer_for (arg : option obj) (el : elem) : observer :=
  {| obs_options := observer_options (default ∅ arg); obs_targets := [el] |}.

(** The platform calls that create the observers [obs] and start each
    one on its targets, in the order of creation. *)
Definition creation_calls (obs : list observer) : list call :=
  mjoin (imap (λ o ob, New (obs_options ob) :: (Observe o <$> obs_targets ob)) obs).

(** An observer that observes exactly one element. *)
Definition single_target (ob : observer) : Prop := ∃ el, obs_targets ob = [el].




(** The messages the hook can log. *)
Definition hook_warning (msg : string) : Prop :=
  msg = no_ref_warning ∨ msg = no_entry_warning.

(** *** A run used in the statements

    The consumer attaches element [7], mounts without argument, and then
    renders with a new configuration [{ threshold: 0.5 }]. *)

Definition half : obj := {["threshold" := VNum (Qmake 1 2)]}.

Definition seen : entry := {| isIntersecting := true |}.

Definition mounted : state := run [SetRef (Some 7); Commit None] (start ∅).

Definition reconfigured : state := step mounted (Commit (Some half)).

(** A longer lifetime: mount on element [7], a report, a new
    configuration, the element detached and a render, element [8]
    attached and a render, teardown. *)
Definition busy : list event :=
  [SetRef (Some 7); Commit None; Deliver 0 [seen]; Commit (Some half);
   SetRef None; Commit None; SetRef (Some 8); Commit (Some half); Unmount].

End Life.

(** ** The host's own rules *)

Module Host.
Import JS Hook.

(** The browser's verdict on the options given to the constructor of an
    observer: [None] when it accepts them, or the exception it throws (a
    RangeError for a threshold outside [0, 1], a SyntaxError for a
    malformed [rootMargin], a TypeError for a root that is no element). *)
Abbreviation validation := (obj → option error).

(** A platform that accepts everything. *)
Definition accepting : validation := λ _, None.

(** A platform that checks a numeric threshold and nothing else. *)
Definition threshold_check : validation := λ passed,
  match get passed "threshold" with
  | VNum q =>
      if Qle_bool (Qmake 0 1) q && Qle_bool q (Qmake 1 1) then None
      else Some (RangeError "threshold")
  | _ => None
  end.

(** Lines 36-61 on a platform with the verdict [validate]: when the ref
    holds an element the constructor is called, and an exception it
    throws ends the effect before [observe] and before the cleanup is
    returned; otherwise the effect goes as [Hook.effect].  A rejected
    construction changes nothing on the platform and is not kept in
    [calls]. *)
Definition effect_in (validate : validation) (options : obj) (w : world) :
    result (world * env) :=
  match ref_current w with
  | Some _ =>
      match validate (observer_options options) with
      | Some e => Throw e
      | None => effect options w
      end
  | None => effect options w
  end.

(** The argument of a render: nothing, or the caller's object, given by
    its address and its properties. *)
Abbreviation argument := (option (nat * obj)).

(** The object the caller passed. *)
Definition passed (arg : argument) : option obj := snd <$> arg.

(** The identity of [options] in the hook body: the address of the
    caller's object, or [None] for the object that the default parameter
    [options = {}] creates in this call, which is identical to no other
    object. *)
Definition identity (arg : argument) : option nat := fst <$> arg.

(** A hook instance under React: its life so far, whether it is still
    mounted, and the identity of the [options] of the last effect run
    ([None] before the first). *)
Record state : Type := {
  life : Life.state;
  alive : bool;
  deps : option (option nat)
}.

Definition world_of (s : state) : world := Life.now (life s).

Definition start (g : env) : state :=
  {| life := Life.start g; alive := true; deps := None |}.

(** Line 61, [useEffect(..., [ref, options])]: [ref] is the same object
    at every render, so the effect runs again exactly when [options] is
    not the object of the last run. *)
Definition reruns (s : state) (arg : argument) : bool :=
  match deps s, identity arg with
  | Some (Some a), Some b => negb (Nat.eqb a b)
  | _, _ => true
  end.

(** - [SetRef r]: the host assigns [ref.current];
    - [Render arg]: the component renders, calling the hook with [arg];
    - [Unmount]: React unmounts the instance and calls the cleanup;
    - [Deliver o entries]: the browser reports [entries] to observer
      [o]. *)
Inductive event : Type :=
| SetRef (r : option elem)
| Render (arg : argument)
| Unmount
| Deliver (o : nat) (entries : list entry).

Definition run_effect (validate : validation) (arg : option obj)
    (l : Life.state) : Life.state :=
  match effect_in validate (default ∅ arg) (Life.now l) with
  | Ok (w, ρ) =>
      {| Life.now := w; Life.pending := Some ρ; Life.raised := Life.raised l |}
  | Throw e =>
      {| Life.now := Life.now l; Life.pending := None;
         Life.raised := Life.raised l ++ [e] |}
  end.

(** The commit of a render whose effect runs: the previous cleanup, then
    the effect.  An exception of either reaches React, which finishes the
    commit and then unmounts the instance: from then on it is not
    rendered again and its state updates are dropped. *)
Definition commit (validate : validation) (arg : argument) (s : state) : state :=
  {| life := run_effect validate (passed arg) (Life.run_cleanup (life s));
     alive :=
       Nat.eqb
         (length (Life.raised
                    (run_effect validate (passed arg) (Life.run_cleanup (life s)))))
         (length (Life.raised (life s)));
     deps := Some (identity arg) |}.

(** The callback runs whenever the browser calls it; [setIsVisible] on an
    unmounted instance changes nothing. *)
Definition run_callback (entries : list entry) (s : state) : Life.state :=
  if alive s then Life.run_callback entries (life s)
  else
    {| Life.now :=
         setIsVisible (isVisible (world_of s))
           (Life.now (Life.run_callback entries (life s)));
       Life.pending := Life.pending (Life.run_callback entries (life s));
       Life.raised := Life.raised (Life.run_callback entries (life s)) |}.

Definition step (validate : validation) (s : state) (ev : event) : state :=
  match ev with
  | SetRef r =>
      {| life := {| Life.now := set_ref r (world_of s);
                    Life.pending := Life.pending (life s);
                    Life.raised := Life.raised (life s) |};
         alive := alive s; deps := deps s |}
  | Render arg =>
      if alive s && reruns s arg then commit validate arg s else s
  | Unmount =>
      {| life := Life.run_cleanup (life s); alive := false; deps := deps s |}
  | Deliver o entries =>
      if Life.serves o (world_of s)
      then {| life := run_callback entries s; alive := alive s; deps := deps s |}
      else s
  end.

Definition run (validate : validation) (evs : list event) (s : state) : state :=
  foldl (step validate) s evs.


(** The warnings a commit logs when the ref is empty: the cleanup's, if
    one is pending, and the effect's. *)
Definition skipped_warnings (s : state) : list string :=
  match Life.pending (life s) with
  | Some _ => [no_ref_warning; no_ref_warning]
  | None => [no_ref_warning]
  end.

(** The ReferenceError of the cleanup a commit or a teardown finds
    pending. *)
Definition cleanup_error (s : state) : list error :=
  match Life.pending (life s) with
  | Some _ => [ReferenceError "observer"]
  | None => []
  end.

(** What every instance keeps, mounted or not, in a host without a
    global [observer]. *)
Definition well_formed (s : state) : Prop :=
  Life.observer_unbound (life s) ∧
  Forall Life.single_target (observers (world_of s)) ∧
  calls (world_of s) = Life.creation_calls (observers (world_of s)) ∧
  (length (observers (world_of s)) ≤ 2)%nat ∧
  (length (Life.raised (life s)) ≤ 2)%nat ∧
  (is_Some (Life.pending (life s)) → (length (Life.raised (life s)) ≤ 1)%nat) ∧
  (Life.raised (life s) = [] → (length (observers (world_of s)) ≤ 1)%nat) ∧
  (alive s = true →
     Life.raised (life s) = [] ∧
     (length (observers (world_of s)) ≤ 1)%nat ∧
     (Life.pending (life s) = None → observers (world_of s) = [])).

(** *** Runs used in the statements *)





(** A configuration the threshold check rejects. *)
Definition twice_over : obj := {["threshold" := VNum (Qmake 2 1)]}.

End Host.

(** ** Object patterns *)

Section Patterns.
Import JS.
Implicit Types (o : obj) (k : string) (d v : value).

Lemma get_lookup o k v : o !! k = Some v → get o k = v.
Proof. unfold get. by intros ->. Qed.

Lemma get_missing o k : o !! k = None → absent o k.
Proof. unfold absent, get. by intros ->. Qed.

Lemma or_default_undefined d : or_default d VUndefined = d.
Proof. reflexivity. Qed.

Lemma or_default_defined d v : v ≠ VUndefined → or_default d v = v.
Proof. by destruct v. Qed.

Lemma or_default_absent d o k : absent o k → or_default d (get o k) = d.
Proof. unfold absent. by intros ->. Qed.

Lemma or_default_present d o k : ¬ absent o k → or_default d (get o k) = get o k.
Proof. apply or_default_defined. Qed.

Lemma rest_of_lookup (taken : list string) o k :
  rest_of taken o !! k = if decide (k ∈ taken) then None else o !! k.
Proof.
  induction taken as [|t taken IH]; simpl.
  - destruct (decide (k ∈ [])) as [Hin|_]; [by apply elem_of_nil in Hin | done].
  - destruct (decide (t = k)) as [->|Hne].
    + rewrite lookup_delete_eq.
      destruct (decide (k ∈ k :: taken)) as [_|Hout]; [done|].
      exfalso. apply Hout. left.
    + rewrite lookup_delete_ne by done. rewrite IH.
      destruct (decide (k ∈ taken)) as [Hin|Hout];
        destruct (decide (k ∈ t :: taken)) as [Hin'|Hout']; try done.
      * exfalso. apply Hout'. by right.
      * apply elem_of_cons in Hin' as [->|Hin']; done.
Qed.


End Patterns.

(** ** The callback *)

Section Callback.
Import JS Hook.
Implicit Types (w : world) (entry : entry) (entries : list Hook.entry).

Lemma setIsVisible_frame b w :
  ref_current (setIsVisible b w) = ref_current w ∧
  observers (setIsVisible b w) = observers w ∧
  console (setIsVisible b w) = console w ∧
  calls (setIsVisible b w) = calls w ∧
  globals (setIsVisible b w) = globals w.
Proof. by repeat split. Qed.

Lemma console_warn_frame msg w :
  ref_current (console_warn msg w) = ref_current w ∧
  isVisible (console_warn msg w) = isVisible w ∧
  observers (console_warn msg w) = observers w ∧
  calls (console_warn msg w) = calls w ∧
  globals (console_warn msg w) = globals w.
Proof. by repeat split. Qed.

(** C4. A delivery with at least one record sets the flag to the
    [isIntersecting] of the first record, returns normally and touches
    nothing else; the records after the first have no influence: any two
    batches with the same first record give the same world. *)
Theorem callbackFunction_first_record entry entries w :
  ∃ w',
    callbackFunction (entry :: entries) w = Ok w' ∧
    isVisible w' = isIntersecting entry ∧
    console w' = console w ∧ calls w' = calls w ∧
    observers w' = observers w ∧ ref_current w' = ref_current w ∧
    ∀ others, callbackFunction (entry :: others) w = Ok w'.
Proof.
  exists (setIsVisible (isIntersecting entry) w).
  simpl. by repeat split.
Qed.

(** C5. A delivery with no record leaves the flag as it was, logs the
    warning and returns normally; nothing else changes. *)
Theorem callbackFunction_no_record w :
  ∃ w',
    callbackFunction [] w = Ok w' ∧
    isVisible w' = isVisible w ∧
    console w' = (console w ++ ["useElementOnScreen: entry not provided"])%list ∧
    calls w' = calls w ∧ observers w' = observers w ∧
    ref_current w' = ref_current w.
Proof.
  exists (console_warn "useElementOnScreen: entry not provided" w).
  by repeat split.
Qed.


Lemma callbackFunction_platform entries w w' :
  callbackFunction entries w = Ok w' →
  observers w' = observers w ∧ calls w' = calls w ∧
  ref_current w' = ref_current w ∧ globals w' = globals w.
Proof. destruct entries; simpl; intros [= <-]; by repeat split. Qed.

End Callback.

(** ** The effect and its cleanup *)

Section Effect.
Import JS Hook.
Implicit Types (w : world) (options : obj) (ρ : env) (el : elem).

Lemma or_default_bound_by d options k :
  bound_by d options k (or_default d (get options k)).
Proof.
  split; intros H.
  - by apply or_default_absent.
  - by apply or_default_present.
Qed.

Lemma observer_options_root options :
  get (observer_options options) "root" = or_default VNull (get options "root").
Proof. apply get_lookup. unfold observer_options. by simplify_map_eq. Qed.

Lemma observer_options_rootMargin options :
  get (observer_options options) "rootMargin"
  = or_default (VStr "0px") (get options "rootMargin").
Proof. apply get_lookup. unfold observer_options. by simplify_map_eq. Qed.

Lemma observer_options_threshold options :
  get (observer_options options) "threshold"
  = or_default (VNum (Qmake 3 4)) (get options "threshold").
Proof. apply get_lookup. unfold observer_options. by simplify_map_eq. Qed.

Lemma observer_options_rest options :
  get (observer_options options) "rest"
  = VObj (rest_of ["root"; "rootMargin"; "threshold"] options).
Proof. apply get_lookup. unfold observer_options. by simplify_map_eq. Qed.

Lemma observer_options_other options k :
  k ∉ ["root"; "rootMargin"; "threshold"; "rest"] →
  observer_options options !! k = None.
Proof.
  intros Hk. unfold observer_options.
  rewrite !lookup_insert_ne, lookup_singleton_ne; [done | | | |];
    intros <-; apply Hk; set_solver.
Qed.

(** The effect returns normally in every world, and its cleanup closes
    over the global scope alone. *)
Lemma effect_scope options w :
  ∃ w', effect options w = Ok (w', globals w) ∧ globals w' = globals w.
Proof.
  unfold effect. destruct (ref_current w) as [el|]; simpl.
  - rewrite lookup_insert_eq. eauto.
  - eauto.
Qed.

Lemma effect_attached options w el :
  ref_current w = Some el →
  effect options w =
    Ok (observe (length (observers w)) el
          (snd (new_IntersectionObserver (observer_options options) w)),
        globals w).
Proof. intros H. unfold effect. rewrite H. simpl. by rewrite lookup_insert_eq. Qed.

Lemma effect_detached options w :
  ref_current w = None →
  effect options w = Ok (console_warn no_ref_warning w, globals w).
Proof. intros H. unfold effect. by rewrite H. Qed.

Lemma cleanup_detached ρ w :
  ref_current w = None → cleanup ρ w = Ok (console_warn no_ref_warning w).
Proof. intros H. unfold cleanup. by rewrite H. Qed.

(** With an element attached, the cleanup reads [observer]; a scope
    without that identifier makes it throw before anything is done. *)
Lemma cleanup_attached_unbound ρ w el :
  ref_current w = Some el → ρ !! "observer" = None →
  cleanup ρ w = Throw (ReferenceError "observer").
Proof. intros H1 H2. unfold cleanup. by rewrite H1, H2. Qed.

Lemma cleanup_attached_bound ρ w el o :
  ref_current w = Some el → ρ !! "observer" = Some o →
  cleanup ρ w = Ok (unobserve o el w).
Proof. intros H1 H2. unfold cleanup. by rewrite H1, H2. Qed.

(** C6. When the effect creates an observer, the options object it
    passes has exactly the properties [root], [rootMargin], [threshold]
    and [rest]: the first three are the configuration's value, or
    [null], ['0px'] and [0.75] when absent; [rest] is one nested object
    holding every other property of the configuration. *)
Theorem effect_passes_observer_options options w el :
  ref_current w = Some el →
  ∃ w' ρ passed rest,
    effect options w = Ok (w', ρ) ∧
    calls w' = (calls w ++ [New passed; Observe (length (observers w)) el])%list ∧
    bound_by VNull options "root" (get passed "root") ∧
    bound_by (VStr "0px") options "rootMargin" (get passed "rootMargin") ∧
    bound_by (VNum (Qmake 3 4)) options "threshold" (get passed "threshold") ∧
    get passed "rest" = VObj rest ∧
    (∀ k, rest !! k =
          if decide (k ∈ ["root"; "rootMargin"; "threshold"]) then None
          else options !! k) ∧
    (∀ k, k ∉ ["root"; "rootMargin"; "threshold"; "rest"] → passed !! k = None).
Proof.
  intros Href.
  eexists _, _, (observer_options options),
    (rest_of ["root"; "rootMargin"; "threshold"] options).
  split; [by apply effect_attached|].
  split; [simpl; by rewrite <- app_assoc|].
  rewrite observer_options_root, observer_options_rootMargin,
    observer_options_threshold, observer_options_rest.
  repeat split; try apply or_default_bound_by.
  - apply rest_of_lookup.
  - apply observer_options_other.
Qed.

(** C8. A cleanup that finds the ref empty returns normally, logs the
    warning and makes no call on the platform: no observer is released
    and the observers stay as they are. *)
Theorem cleanup_without_element ρ w :
  ref_current w = None →
  ∃ w',
    cleanup ρ w = Ok w' ∧
    console w' = (console w ++ [no_ref_warning])%list ∧
    calls w' = calls w ∧ observers w' = observers w ∧
    isVisible w' = isVisible w.
Proof.
  intros H. exists (console_warn no_ref_warning w).
  split; [by apply cleanup_detached | by repeat split].
Qed.

(** C9. An effect that finds the ref empty returns normally, logs the
    warning, creates no observer and makes no call on the platform; an
    unbound tracker stays unbound. *)
Theorem effect_without_element options w :
  ref_current w = None →
  ∃ w' ρ,
    effect options w = Ok (w', ρ) ∧
    console w' = (console w ++ [no_ref_warning])%list ∧
    calls w' = calls w ∧ observers w' = observers w ∧
    isVisible w' = isVisible w ∧
    (unbound w → unbound w').
Proof.
  intros H. exists (console_warn no_ref_warning w), (globals w).
  split; [by apply effect_detached | by repeat split].
Qed.


End Effect.

(** ** Lifetimes *)

Section Lifetime.
Import JS Hook Life.
Implicit Types (w : world) (s : state) (ev : event) (evs : list event).

Lemma run_cons ev evs s : run (ev :: evs) s = run evs (step s ev).
Proof. reflexivity. Qed.

Lemma cleanup_frame ρ w w' :
  cleanup ρ w = Ok w' →
  isVisible w' = isVisible w ∧ ref_current w' = ref_current w ∧
  globals w' = globals w.
Proof.
  unfold cleanup. destruct (ref_current w) as [el|] eqn:Href.
  - destruct (ρ !! "observer"); [|done]. intros [= <-]. by repeat split.
  - intros [= <-]. by repeat split.
Qed.

Lemma effect_frame options w w' ρ :
  effect options w = Ok (w', ρ) →
  isVisible w' = isVisible w ∧ ref_current w' = ref_current w ∧
  globals w' = globals w ∧ ρ = globals w.
Proof.
  destruct (ref_current w) as [el|] eqn:Href.
  - rewrite (effect_attached _ _ _ Href). intros [= <- <-]. by repeat split.
  - rewrite (effect_detached _ _ Href). intros [= <- <-]. by repeat split.
Qed.

(** *** The flag moves in deliveries only *)

Lemma run_cleanup_flag s : isVisible (now (run_cleanup s)) = isVisible (now s).
Proof.
  unfold run_cleanup. destruct (pending s) as [ρ|]; [|done].
  destruct (cleanup ρ (now s)) as [w'|e] eqn:E; [|done].
  simpl. apply cleanup_frame in E as (E & _). exact E.
Qed.

Lemma run_effect_flag arg s : isVisible (now (run_effect arg s)) = isVisible (now s).
Proof.
  unfold run_effect, useElementOnScreen, the_effect.
  destruct (effect (default ∅ arg) (now s)) as [[w' ρ]|e] eqn:E; [|done].
  simpl. apply effect_frame in E as (E & _). exact E.
Qed.

Lemma step_flag s ev :
  no_delivery [ev] = true → isVisible (now (step s ev)) = isVisible (now s).
Proof.
  destruct ev as [r|arg| |o entries]; intros H; try discriminate H.
  - reflexivity.
  - cbn [step]. by rewrite run_effect_flag, run_cleanup_flag.
  - apply run_cleanup_flag.
Qed.

Lemma run_flag evs s :
  no_delivery evs = true → isVisible (now (run evs s)) = isVisible (now s).
Proof.
  revert s. induction evs as [|ev evs IH]; intros s H; [done|].
  rewrite run_cons. simpl in H. apply andb_prop in H as [Hev Hevs].
  rewrite IH by done. apply step_flag. simpl. by rewrite Hev.
Qed.

(** *** A ref that never holds an element *)

Lemma step_never_attached s ev :
  never_attached [ev] = true →
  ref_current (now s) = None → observers (now s) = [] →
  ref_current (now (step s ev)) = None ∧ observers (now (step s ev)) = [] ∧
  isVisible (now (step s ev)) = isVisible (now s) ∧
  raised (step s ev) = raised s.
Proof.
  intros Hev Href Hobs.
  assert (Hclean : ref_current (now (run_cleanup s)) = None ∧
                   observers (now (run_cleanup s)) = [] ∧
                   raised (run_cleanup s) = raised s).
  { unfold run_cleanup. destruct (pending s) as [ρ|]; [|done].
    by rewrite (cleanup_detached _ _ Href). }
  destruct ev as [[el|]|arg| |o entries]; try discriminate Hev; cbn [step].
  - done.
  - destruct Hclean as (Href' & Hobs' & Hraised').
    rewrite run_effect_flag, run_cleanup_flag.
    unfold run_effect, useElementOnScreen, the_effect.
    rewrite (effect_detached _ _ Href'). cbn [now raised].
    by rewrite <- Hraised'.
  - destruct Hclean as (? & ? & ?). by rewrite run_cleanup_flag.
  - unfold serves. by rewrite Hobs.
Qed.

Lemma run_never_attached evs s :
  never_attached evs = true →
  ref_current (now s) = None → observers (now s) = [] →
  ref_current (now (run evs s)) = None ∧ observers (now (run evs s)) = [] ∧
  isVisible (now (run evs s)) = isVisible (now s) ∧
  raised (run evs s) = raised s.
Proof.
  revert s. induction evs as [|ev evs IH]; intros s H Href Hobs; [done|].
  rewrite run_cons. simpl in H. apply andb_prop in H as [Hev Hevs].
  destruct (step_never_attached s ev) as (Href' & Hobs' & Hflag & Hraised);
    [simpl; by rewrite Hev | done | done |].
  destruct (IH (step s ev)) as (? & ? & ? & ?); [done..|].
  repeat split; congruence.
Qed.

(** C7. Whatever the configuration, the flag the hook returns is [false]
    at the first render and stays [false] as long as no element has been
    attached to the ref, and as long as no callback has been delivered. *)
Theorem flag_false_before_first_callback (g : env) (arg : option obj) evs :
  never_attached evs = true ∨ no_delivery evs = true →
  ret_isVisible (useElementOnScreen arg (now (run evs (start g)))) = false.
Proof.
  simpl. intros [H|H].
  - by destruct (run_never_attached evs (start g) H) as (_ & _ & -> & _).
  - by rewrite run_flag.
Qed.

(** *** No observer is ever released

    In a host whose global object has no [observer], the scope of every
    cleanup lacks the identifier, so no exit path reaches [unobserve]. *)

Lemma releases_console_warn msg w : releases (console_warn msg w) = releases w.
Proof. reflexivity. Qed.

Lemma releases_with_platform obs c w :
  is_release c = false → releases (with_platform obs c w) = releases w.
Proof.
  intros Hc. unfold releases, with_platform. cbn [calls].
  rewrite filter_app, length_app. cbn. rewrite Hc.
  rewrite decide_False by done. simpl. lia.
Qed.

Lemma effect_releases options w w' ρ :
  effect options w = Ok (w', ρ) → releases w' = releases w.
Proof.
  destruct (ref_current w) as [el|] eqn:Href.
  - rewrite (effect_attached _ _ _ Href). intros [= <- <-].
    unfold observe, new_IntersectionObserver. cbn [snd].
    by rewrite !releases_with_platform.
  - rewrite (effect_detached _ _ Href). by intros [= <- <-].
Qed.

Lemma callbackFunction_releases entries w w' :
  callbackFunction entries w = Ok w' → releases w' = releases w.
Proof. destruct entries; simpl; by intros [= <-]. Qed.

Lemma run_cleanup_unbound s :
  observer_unbound s →
  observer_unbound (run_cleanup s) ∧
  releases (now (run_cleanup s)) = releases (now s).
Proof.
  intros [Hg Hp]. unfold run_cleanup.
  destruct (pending s) as [ρ|] eqn:Hpend.
  - specialize (Hp ρ eq_refl). unfold cleanup.
    destruct (ref_current (now s)) as [el|].
    + rewrite Hp. repeat split; [done|]. by intros ? [=].
    + repeat split; [done|]. by intros ? [=].
  - repeat split; [done|]. intros ρ Hρ. congruence.
Qed.

Lemma run_effect_unbound arg s :
  observer_unbound s →
  observer_unbound (run_effect arg s) ∧
  releases (now (run_effect arg s)) = releases (now s).
Proof.
  intros [Hg Hp]. unfold run_effect, useElementOnScreen, the_effect.
  destruct (effect (default ∅ arg) (now s)) as [[w' ρ]|e] eqn:E.
  - pose proof (effect_releases _ _ _ _ E) as Hrel.
    apply effect_frame in E as (_ & _ & Hg' & ->).
    repeat split; cbn [now pending]; [congruence | | done].
    by intros ? [= <-].
  - repeat split; [done|]. by intros ? [=].
Qed.

Lemma step_unbound s ev :
  observer_unbound s →
  observer_unbound (step s ev) ∧ releases (now (step s ev)) = releases (now s).
Proof.
  intros H. destruct ev as [r|arg| |o entries]; cbn [step].
  - by destruct H.
  - destruct (run_cleanup_unbound s H) as [H1 E1].
    destruct (run_effect_unbound arg _ H1) as [H2 E2].
    split; [done | congruence].
  - by apply run_cleanup_unbound.
  - destruct (serves o (now s)); [|done]. unfold run_callback.
    destruct (callbackFunction entries (now s)) as [w'|e] eqn:E; [|done].
    pose proof (callbackFunction_releases _ _ _ E).
    apply callbackFunction_platform in E as (_ & _ & _ & Hg).
    destruct H as [H1 H2]. split; [split|]; cbn [now pending].
    + by rewrite Hg.
    + exact H2.
    + done.
Qed.

Lemma run_unbound evs s :
  observer_unbound s →
  observer_unbound (run evs s) ∧ releases (now (run evs s)) = releases (now s).
Proof.
  revert s. induction evs as [|ev evs IH]; intros s H; [done|].
  rewrite run_cons. destruct (step_unbound s ev H) as [H1 E1].
  destruct (IH _ H1) as [H2 E2]. split; [done | congruence].
Qed.

Lemma start_unbound : observer_unbound (start ∅).
Proof. split; [done | by intros ? [=]]. Qed.

(** Over a whole lifetime, whatever happens, the hook never calls
    [unobserve]. *)
Lemma never_releases evs : releases (now (run evs (start ∅))) = 0.
Proof. by destruct (run_unbound evs _ start_unbound) as [_ ->]. Qed.

(** Whenever a cleanup is pending and an element is attached, running
    the cleanup throws. *)
Lemma pending_cleanup_throws evs ρ el :
  pending (run evs (start ∅)) = Some ρ →
  ref_current (now (run evs (start ∅))) = Some el →
  cleanup ρ (now (run evs (start ∅))) = Throw (ReferenceError "observer").
Proof.
  intros Hp Href.
  destruct (run_unbound evs _ start_unbound) as [[_ Hscope] _].
  by apply (cleanup_attached_unbound _ _ el); [|apply Hscope].
Qed.

End Lifetime.

(** ** One lifetime, step by step

    Element [7] is attached, the hook is mounted without argument
    ([mounted]) and then rendered with [{ threshold: 0.5 }]
    ([reconfigured]). *)

Section Run.
Import JS Hook Life.

Lemma mounted_observing :
  ref_current (now mounted) = Some 7 ∧
  pending mounted = Some ∅ ∧
  calls (now mounted) = [New default_observer_options; Observe 0 7] ∧
  active_observers (now mounted) = [0] ∧
  raised mounted = [].
Proof. by vm_compute. Qed.

(** C1. With an element attached, neither exit path releases the
    observer.  The cleanup of the mounted instance throws a
    ReferenceError for [observer]; on a configuration change and on
    teardown alike that exception reaches the host, [unobserve] is not
    called, and the observer created at mount is still active. *)
Theorem cleanup_with_element_throws :
  cleanup ∅ (now mounted) = Throw (ReferenceError "observer") ∧
  raised reconfigured = [ReferenceError "observer"] ∧
  releases (now reconfigured) = 0 ∧
  0 ∈ active_observers (now reconfigured) ∧
  raised (step mounted Unmount) = [ReferenceError "observer"] ∧
  releases (now (step mounted Unmount)) = 0 ∧
  active_observers (now (step mounted Unmount)) = [0].
Proof.
  repeat split; try by vm_compute.
  assert (E : active_observers (now reconfigured) = [0; 1]) by by vm_compute.
  rewrite E. set_solver.
Qed.

(** C2. After a configuration change with an element attached, the
    instance has two active observers: the one created at mount was not
    removed before the new one was created, nor afterwards. *)
Theorem reconfigured_two_active_observers :
  active_observers (now reconfigured) = [0; 1] ∧
  (obs_targets <$> observers (now reconfigured)) = [[7]; [7]] ∧
  calls (now reconfigured) =
    [New default_observer_options; Observe 0 7;
     New (observer_options half); Observe 1 7].
Proof. by vm_compute. Qed.

(** When the element is detached before the configuration changes,
    the cleanup skips the teardown: nothing is thrown, both functions
    log their warning, and the observer created at mount stays active
    and keeps driving the flag. *)
Lemma detached_reconfigure_keeps_observer :
  raised (run [SetRef None; Commit (Some half)] mounted) = [] ∧
  console (now (run [SetRef None; Commit (Some half)] mounted))
  = [no_ref_warning; no_ref_warning] ∧
  active_observers (now (run [SetRef None; Commit (Some half)] mounted)) = [0] ∧
  isVisible (now (run [SetRef None; Commit (Some half); Deliver 0 [seen]] mounted))
  = true.
Proof. by vm_compute. Qed.

End Run.

(** ** The hypotheses are met *)

Section Witnesses.
Import JS Hook Life.

Lemma effect_passes_observer_options_witness :
  ref_current (now (step (start ∅) (SetRef (Some 7)))) = Some 7 ∧
  ∃ w' ρ passed rest,
    effect (<["root" := VElem 3]> (<["delay" := VNum (Qmake 100 1)]> half))
      (now (step (start ∅) (SetRef (Some 7)))) = Ok (w', ρ) ∧
    calls w' = (calls (now (step (start ∅) (SetRef (Some 7))))
                ++ [New passed; Observe 0 7])%list ∧
    bound_by VNull (<["root" := VElem 3]> (<["delay" := VNum (Qmake 100 1)]> half))
      "root" (get passed "root") ∧
    bound_by (VStr "0px") (<["root" := VElem 3]> (<["delay" := VNum (Qmake 100 1)]> half))
      "rootMargin" (get passed "rootMargin") ∧
    bound_by (VNum (Qmake 3 4)) (<["root" := VElem 3]> (<["delay" := VNum (Qmake 100 1)]> half))
      "threshold" (get passed "threshold") ∧
    get passed "rest" = VObj rest ∧
    (∀ k, rest !! k =
          if decide (k ∈ ["root"; "rootMargin"; "threshold"]) then None
          else (<["root" := VElem 3]> (<["delay" := VNum (Qmake 100 1)]> half)) !! k) ∧
    (∀ k, k ∉ ["root"; "rootMargin"; "threshold"; "rest"] → passed !! k = None).
Proof.
  split; [reflexivity|].
  apply (effect_passes_observer_options
           (<["root" := VElem 3]> (<["delay" := VNum (Qmake 100 1)]> half))
           (now (step (start ∅) (SetRef (Some 7)))) 7).
  reflexivity.
Defined.

Lemma flag_false_before_first_callback_witness :
  (never_attached [Commit (Some half); Deliver 0 [seen]; SetRef None; Unmount] = true ∨
   no_delivery [Commit (Some half); Deliver 0 [seen]; SetRef None; Unmount] = true) ∧
  ret_isVisible
    (useElementOnScreen None
       (now (run [Commit (Some half); Deliver 0 [seen]; SetRef None; Unmount]
               (start ∅)))) = false.
Proof.
  split; [left; reflexivity|].
  apply (flag_false_before_first_callback ∅ None
           [Commit (Some half); Deliver 0 [seen]; SetRef None; Unmount]).
  left. reflexivity.
Defined.

Lemma cleanup_without_element_witness :
  ref_current (now (step mounted (SetRef None))) = None ∧
  ∃ w',
    cleanup ∅ (now (step mounted (SetRef None))) = Ok w' ∧
    console w' = (console (now (step mounted (SetRef None))) ++ [no_ref_warning])%list ∧
    calls w' = calls (now (step mounted (SetRef None))) ∧
    observers w' = observers (now (step mounted (SetRef None))) ∧
    isVisible w' = isVisible (now (step mounted (SetRef None))).
Proof.
  split; [reflexivity|].
  apply (cleanup_without_element ∅ (now (step mounted (SetRef None)))).
  reflexivity.
Defined.

Lemma effect_without_element_witness :
  ref_current (initial ∅) = None ∧
  ∃ w' ρ,
    effect half (initial ∅) = Ok (w', ρ) ∧
    console w' = (console (initial ∅) ++ [no_ref_warning])%list ∧
    calls w' = calls (initial ∅) ∧ observers w' = observers (initial ∅) ∧
    isVisible w' = isVisible (initial ∅) ∧
    (unbound (initial ∅) → unbound w').
Proof.
  split; [reflexivity|].
  apply (effect_without_element half (initial ∅)). reflexivity.
Defined.

End Witnesses.

(** ** What a commit and a teardown do in general *)

Section Steps.
Import JS Hook Life.
Implicit Types (w : world) (s : state) (ev : event) (evs : list event).

Lemma run_app evs1 evs2 s : run (evs1 ++ evs2) s = run evs2 (run evs1 s).
Proof. apply foldl_app. Qed.

Lemma effect_attached_fields options w el :
  ref_current w = Some el →
  ∃ w',
    effect options w = Ok (w', globals w) ∧
    observers w' = (observers w ++
      [{| obs_options := observer_options options; obs_targets := [el] |}])%list ∧
    calls w' = (calls w ++
      [New (observer_options options); Observe (length (observers w)) el])%list ∧
    console w' = console w ∧ isVisible w' = isVisible w ∧
    ref_current w' = ref_current w ∧ globals w' = globals w.
Proof.
  intros Href. eexists. split; [by apply effect_attached|].
  unfold observe, new_IntersectionObserver, with_platform. cbn.
  split; [|by rewrite <- app_assoc].
  replace (length (observers w)) with (length (observers w) + 0) by lia.
  by rewrite alter_app_r.
Qed.

(** The state a cleanup leaves when the scope binds no [observer]. *)
Lemma run_cleanup_cases s :
  observer_unbound s →
  match pending s, ref_current (now s) with
  | None, _ => run_cleanup s = s
  | Some _, Some _ =>
      run_cleanup s =
        {| now := now s; pending := None;
           raised := raised s ++ [ReferenceError "observer"] |}
  | Some _, None =>
      run_cleanup s =
        {| now := console_warn no_ref_warning (now s); pending := None;
           raised := raised s |}
  end.
Proof.
  intros [_ Hp]. unfold run_cleanup.
  destruct (pending s) as [ρ|]; [|done].
  specialize (Hp ρ eq_refl). unfold cleanup.
  destruct (ref_current (now s)); [by rewrite Hp | done].
Qed.

End Steps.

(** ** Invariants of a lifetime *)

Section Invariants.
Import JS Hook Life.
Implicit Types (w : world) (s : state) (ev : event) (evs : list event) (g : env).

Lemma run_invariant (P : state → Prop) :
  (∀ s ev, P s → P (step s ev)) → ∀ evs s, P s → P (run evs s).
Proof.
  intros Hstep evs. induction evs as [|ev evs IH]; intros s Hs; [done|].
  rewrite run_cons. apply IH, Hstep, Hs.
Qed.

Lemma start_unbound_in g : g !! "observer" = None → observer_unbound (start g).
Proof. intros Hg. split; [done | by intros ? [=]]. Qed.

Lemma step_globals s ev : globals (now (step s ev)) = globals (now s).
Proof.
  assert (Hc : globals (now (run_cleanup s)) = globals (now s)).
  { unfold run_cleanup. destruct (pending s) as [ρ|]; [|done].
    destruct (cleanup ρ (now s)) as [w'|e] eqn:E; [|done].
    by apply cleanup_frame in E as (_ & _ & E). }
  destruct ev as [r|arg| |o entries]; cbn [step]; [done| |done|].
  - rewrite <- Hc. unfold run_effect, useElementOnScreen, the_effect.
    destruct (effect (default ∅ arg) (now (run_cleanup s))) as [[w' ρ]|e] eqn:E;
      [|done].
    by apply effect_frame in E as (_ & _ & E & _).
  - destruct (serves o (now s)); [|done]. unfold run_callback.
    destruct (callbackFunction entries (now s)) as [w'|e] eqn:E; [|done].
    by apply callbackFunction_platform in E as (_ & _ & _ & E).
Qed.

Lemma run_globals evs s : globals (now (run evs s)) = globals (now s).
Proof.
  revert s. induction evs as [|ev evs IH]; intros s; [done|].
  by rewrite run_cons, IH, step_globals.
Qed.

Lemma creation_calls_snoc (obs : list observer) (ob : observer) :
  creation_calls (obs ++ [ob])
  = (creation_calls obs ++
     New (obs_options ob) :: (Observe (length obs) <$> obs_targets ob))%list.
Proof.
  unfold creation_calls. rewrite imap_app, join_app. cbn.
  by rewrite Nat.add_0_r, app_nil_r.
Qed.

(** The invariant: the scope has no [observer], every observer has the
    one target it was started on, and the platform calls are exactly
    the creations. *)
Lemma step_accumulates s ev :
  observer_unbound s ∧ Forall single_target (observers (now s)) ∧
    calls (now s) = creation_calls (observers (now s)) →
  observer_unbound (step s ev) ∧
    Forall single_target (observers (now (step s ev))) ∧
    calls (now (step s ev)) = creation_calls (observers (now (step s ev))).
Proof.
  intros (Hu & Hobs & Hcalls).
  split; [by apply step_unbound|].
  assert (Hc : Forall single_target (observers (now (run_cleanup s))) ∧
               calls (now (run_cleanup s))
               = creation_calls (observers (now (run_cleanup s)))).
  { pose proof (run_cleanup_cases s Hu) as H.
    destruct (pending s), (ref_current (now s)); by rewrite H. }
  destruct ev as [r|arg| |o entries]; cbn [step]; [done| |done|].
  - destruct Hc as [Hobs' Hcalls'].
    unfold run_effect, useElementOnScreen, the_effect.
    destruct (ref_current (now (run_cleanup s))) as [el|] eqn:Href.
    + destruct (effect_attached_fields (default ∅ arg) _ el Href)
        as (w' & -> & Eo & Ec & _).
      cbn [now]. rewrite Eo, Ec, creation_calls_snoc, Hcalls'. cbn.
      split; [|done]. apply Forall_app. split; [done|].
      apply Forall_singleton. by exists el.
    + by rewrite (effect_detached _ _ Href).
  - destruct (serves o (now s)); [|done]. unfold run_callback.
    destruct (callbackFunction entries (now s)) as [w'|e] eqn:E; [|done].
    apply callbackFunction_platform in E as (Eo & Ec & _).
    cbn [now]. by rewrite Eo, Ec.
Qed.

Lemma run_accumulates g evs :
  g !! "observer" = None →
  observer_unbound (run evs (start g)) ∧
    Forall single_target (observers (now (run evs (start g)))) ∧
    calls (now (run evs (start g)))
    = creation_calls (observers (now (run evs (start g)))).
Proof.
  intros Hg.
  apply (run_invariant (λ s, observer_unbound s ∧
           Forall single_target (observers (now s)) ∧
           calls (now s) = creation_calls (observers (now s)))).
  - apply step_accumulates.
  - split; [by apply start_unbound_in | by split].
Qed.

Lemma filter_seq_all (P : nat → Prop) `{!∀ x, Decision (P x)} (l : list nat) :
  Forall P l → filter P l = l.
Proof.
  induction 1 as [|x l Hx _ IH]; [done|].
  rewrite filter_cons, decide_True by done. by rewrite IH.
Qed.

Lemma single_target_serves w o :
  Forall single_target (observers w) → o < length (observers w) →
  serves o w = true.
Proof.
  intros Hall Ho. unfold serves.
  destruct (lookup_lt_is_Some_2 _ _ Ho) as [ob Hob]. rewrite Hob.
  rewrite Forall_lookup in Hall. destruct (Hall _ _ Hob) as [el Hel].
  unfold is_active. by rewrite Hel.
Qed.

(** X1. In a host whose global object has no [observer], the hook never
    calls [unobserve], whatever happens during the lifetime. *)
Theorem lifetime_never_unobserves g evs o el :
  g !! "observer" = None →
  Unobserve o el ∉ calls (now (run evs (start g))).
Proof.
  intros Hg Hin.
  destruct (run_unbound evs _ (start_unbound_in g Hg)) as [_ Hrel].
  unfold releases in Hrel. cbn in Hrel.
  apply nil_length_inv in Hrel.
  assert (Hf : Unobserve o el
               ∈ filter (λ c, is_release c = true) (calls (now (run evs (start g))))).
  { apply list_elem_of_filter. by split. }
  rewrite Hrel in Hf. by apply elem_of_nil in Hf.
Qed.

(** X2. In such a host, every observer the hook has created is still
    active at every point of the lifetime, each with exactly one
    target: observers accumulate, one per effect run with an element. *)
Theorem lifetime_observers_accumulate g evs :
  g !! "observer" = None →
  Forall single_target (observers (now (run evs (start g)))) ∧
  active_observers (now (run evs (start g)))
  = seq 0 (length (observers (now (run evs (start g))))).
Proof.
  intros Hg. destruct (run_accumulates g evs Hg) as (_ & Hall & _).
  split; [done|]. unfold active_observers.
  apply filter_seq_all. apply Forall_forall. intros o Ho.
  apply elem_of_seq in Ho. apply single_target_serves; [done | lia].
Qed.

End Invariants.

(** ** Commits and teardowns at any point of a lifetime *)

Section Exits.
Import JS Hook Life.
Implicit Types (w : world) (s : state) (ev : event) (evs : list event) (g : env).

(** X5. In a host without a global [observer], at any point of a
    lifetime, a teardown with an element attached and a cleanup pending
    changes nothing in the world: the observers, the platform calls, the
    console and the flag stay as they were, and the only outcome is the
    reported ReferenceError.  A second teardown does nothing at all. *)
Theorem unmount_with_element g evs el :
  g !! "observer" = None →
  ref_current (now (run evs (start g))) = Some el →
  is_Some (pending (run evs (start g))) →
  step (run evs (start g)) Unmount
  = {| now := now (run evs (start g)); pending := None;
       raised := raised (run evs (start g)) ++ [ReferenceError "observer"] |} ∧
  step (step (run evs (start g)) Unmount) Unmount
  = step (run evs (start g)) Unmount.
Proof.
  intros Hg Href [ρ Hp]. set (s := run evs (start g)) in *.
  assert (Hu : observer_unbound s) by by apply run_unbound, start_unbound_in.
  pose proof (run_cleanup_cases s Hu) as Hc. rewrite Href, Hp in Hc.
  cbn [step]. rewrite Hc. done.
Qed.

(** X6. A lifetime in which no element is ever attached to the ref makes
    no call on the platform, creates no observer, raises nothing and
    keeps the flag [false]; all it does is log the missing-ref warning. *)
Theorem lifetime_without_element g evs :
  never_attached evs = true →
  calls (now (run evs (start g))) = [] ∧
  observers (now (run evs (start g))) = [] ∧
  raised (run evs (start g)) = [] ∧
  isVisible (now (run evs (start g))) = false ∧
  ref_current (now (run evs (start g))) = None ∧
  Forall (λ msg, msg = no_ref_warning) (console (now (run evs (start g)))).
Proof.
  intros Hev.
  destruct (run_never_attached evs (start g) Hev) as (Href & Hobs & Hflag & Hr);
    [done..|].
  enough (H : calls (now (run evs (start g))) = [] ∧
              Forall (λ msg, msg = no_ref_warning) (console (now (run evs (start g)))))
    by (destruct H; by repeat split).
  clear Href Hobs Hflag Hr.
  assert (Hgen : ∀ s,
    never_attached evs = true →
    ref_current (now s) = None → observers (now s) = [] →
    calls (now s) = [] →
    Forall (λ msg, msg = no_ref_warning) (console (now s)) →
    calls (now (run evs s)) = [] ∧
    Forall (λ msg, msg = no_ref_warning) (console (now (run evs s)))).
  { clear Hev. induction evs as [|ev evs IH]; intros s Hev Href Hobs Hc Hcon;
      [done|].
    rewrite run_cons. cbn in Hev. apply andb_prop in Hev as [Hev1 Hev2].
    destruct (step_never_attached s ev) as (Href' & Hobs' & _ & _);
      [cbn; by rewrite Hev1 | done | done |].
    apply IH; try done.
    - destruct ev as [[el|]|arg| |o entries]; try discriminate Hev1; cbn [step].
      + done.
      + unfold run_effect, useElementOnScreen, the_effect, run_cleanup.
        destruct (pending s) as [ρ|].
        * rewrite (cleanup_detached _ _ Href). cbn [now].
          by rewrite effect_detached.
        * by rewrite (effect_detached _ _ Href).
      + unfold run_cleanup. destruct (pending s) as [ρ|]; [|done].
        by rewrite (cleanup_detached _ _ Href).
      + unfold serves. by rewrite Hobs.
    - destruct ev as [[el|]|arg| |o entries]; try discriminate Hev1; cbn [step].
      + done.
      + unfold run_effect, useElementOnScreen, the_effect, run_cleanup.
        destruct (pending s) as [ρ|].
        * rewrite (cleanup_detached _ _ Href). cbn [now].
          rewrite effect_detached by done. cbn.
          rewrite !Forall_app, !Forall_singleton. by repeat split.
        * rewrite (effect_detached _ _ Href). cbn.
          rewrite Forall_app, Forall_singleton. by split.
      + unfold run_cleanup. destruct (pending s) as [ρ|]; [|done].
        rewrite (cleanup_detached _ _ Href). cbn.
        rewrite Forall_app, Forall_singleton. by split.
      + unfold serves. by rewrite Hobs. }
  by apply Hgen.
Qed.

End Exits.

(** ** What the hook writes, and what it leaves alone *)

Section Frames.
Import JS Hook Life.
Implicit Types (w : world) (s : state) (ev : event) (evs : list event) (g : env).

Lemma run_cleanup_ref s : ref_current (now (run_cleanup s)) = ref_current (now s).
Proof.
  unfold run_cleanup. destruct (pending s) as [ρ|]; [|done].
  destruct (cleanup ρ (now s)) as [w'|e] eqn:E; [|done].
  by apply cleanup_frame in E as (_ & E & _).
Qed.

Lemma run_effect_ref arg s :
  ref_current (now (run_effect arg s)) = ref_current (now s).
Proof.
  unfold run_effect, useElementOnScreen, the_effect.
  destruct (effect (default ∅ arg) (now s)) as [[w' ρ]|e] eqn:E; [|done].
  by apply effect_frame in E as (_ & E & _).
Qed.

(** X7. The flag is written by the callback alone: an event changes it
    only if it is a delivery, with at least one record, to an observer
    that is active, and then the flag is that first record's
    [isIntersecting].  Commits, teardowns, ref assignments, empty
    deliveries and deliveries to other handles leave it as it was, in
    every state and whatever cleanup is pending. *)
Theorem flag_written_by_callback_only s ev :
  isVisible (now (step s ev)) =
    match ev with
    | Deliver o (entry :: _) =>
        if serves o (now s) then isIntersecting entry else isVisible (now s)
    | _ => isVisible (now s)
    end.
Proof.
  destruct ev as [r|arg| |o [|entry entries]]; cbn [step].
  - done.
  - by rewrite run_effect_flag, run_cleanup_flag.
  - apply run_cleanup_flag.
  - by destruct (serves o (now s)).
  - by destruct (serves o (now s)).
Qed.

Lemma run_callback_ref entries s :
  ref_current (now (run_callback entries s)) = ref_current (now s).
Proof.
  unfold run_callback.
  destruct (callbackFunction entries (now s)) as [w'|e] eqn:E; [|done].
  by apply callbackFunction_platform in E as (_ & _ & E & _).
Qed.

Lemma step_ref s ev :
  ref_current (now (step s ev)) =
    match ev with
    | SetRef r => r
    | _ => ref_current (now s)
    end.
Proof.
  destruct ev as [r|arg| |o entries]; cbn [step].
  - done.
  - by rewrite run_effect_ref, run_cleanup_ref.
  - apply run_cleanup_ref.
  - destruct (serves o (now s)); [apply run_callback_ref | done].
Qed.

(** X8. The hook never assigns [ref.current]: over any sequence of
    events, in every state and whatever cleanup is pending, the ref
    holds what the host assigned last, or what it held at the start when
    the host assigned nothing. *)
Theorem ref_written_by_host_only s evs :
  ref_current (now (run evs s))
  = foldl (λ r ev, match ev with SetRef r' => r' | _ => r end)
      (ref_current (now s)) evs.
Proof.
  revert s. induction evs as [|ev evs IH]; intros s; [done|].
  rewrite run_cons, IH, step_ref. cbn [foldl]. by destruct ev.
Qed.



End Frames.

(** ** The options object, as the platform sees it *)

Section Options.
Import JS Hook.
Implicit Types (o : obj) (k : string).

Lemma or_default_never_undefined (d v : value) :
  d ≠ VUndefined → or_default d v ≠ VUndefined.
Proof. by destruct v. Qed.

(** X13. Whatever the configuration holds, also [undefined] written out
    for a property, the platform is never given [undefined] for [root],
    [rootMargin], [threshold] or [rest]. *)
Theorem observer_options_never_undefined o k :
  k ∈ ["root"; "rootMargin"; "threshold"; "rest"] →
  get (observer_options o) k ≠ VUndefined.
Proof.
  intros Hk. repeat (apply elem_of_cons in Hk as [->|Hk]).
  - rewrite observer_options_root. by apply or_default_never_undefined.
  - rewrite observer_options_rootMargin. by apply or_default_never_undefined.
  - rewrite observer_options_threshold. by apply or_default_never_undefined.
  - by rewrite observer_options_rest.
  - by apply elem_of_nil in Hk.
Qed.

(** X14. Two configurations give the platform the same options exactly
    when they agree on every property other than [root], [rootMargin]
    and [threshold], and on these three once the defaults are filled
    in: apart from the defaults, nothing of a configuration is lost or
    merged in what is passed. *)
Theorem observer_options_same_iff o1 o2 :
  observer_options o1 = observer_options o2 ↔
  or_default VNull (get o1 "root") = or_default VNull (get o2 "root") ∧
  or_default (VStr "0px") (get o1 "rootMargin")
  = or_default (VStr "0px") (get o2 "rootMargin") ∧
  or_default (VNum (Qmake 3 4)) (get o1 "threshold")
  = or_default (VNum (Qmake 3 4)) (get o2 "threshold") ∧
  ∀ k, k ∉ ["root"; "rootMargin"; "threshold"] → o1 !! k = o2 !! k.
Proof.
  split.
  - intros E.
    rewrite <- !observer_options_root, <- !observer_options_rootMargin,
      <- !observer_options_threshold, E.
    repeat split. intros k Hk.
    assert (Er : get (observer_options o1) "rest" = get (observer_options o2) "rest")
      by by rewrite E.
    rewrite !observer_options_rest in Er.
    assert (Ek : rest_of ["root"; "rootMargin"; "threshold"] o1 !! k
                 = rest_of ["root"; "rootMargin"; "threshold"] o2 !! k)
      by congruence.
    rewrite !rest_of_lookup in Ek.
    by destruct (decide (k ∈ ["root"; "rootMargin"; "threshold"])).
  - intros (E1 & E2 & E3 & Er). unfold observer_options.
    rewrite E1, E2, E3.
    enough (Hrest : rest_of ["root"; "rootMargin"; "threshold"] o1
                    = rest_of ["root"; "rootMargin"; "threshold"] o2)
      by by rewrite Hrest.
    apply map_eq. intros k. rewrite !rest_of_lookup.
    destruct (decide (k ∈ ["root"; "rootMargin"; "threshold"])); [done|].
    by apply Er.
Qed.

End Options.

(** ** The hypotheses of the lifetime statements are met *)

Section LifetimeWitnesses.
Import JS Hook Life.

Lemma lifetime_never_unobserves_witness :
  (∅ : env) !! "observer" = None ∧
  Unobserve 0 7 ∉ calls (now (run busy (start ∅))).
Proof.
  split; [reflexivity|].
  apply (lifetime_never_unobserves ∅ busy 0 7). reflexivity.
Defined.

Lemma lifetime_observers_accumulate_witness :
  (∅ : env) !! "observer" = None ∧
  Forall single_target (observers (now (run busy (start ∅)))) ∧
  active_observers (now (run busy (start ∅)))
  = seq 0 (length (observers (now (run busy (start ∅))))).
Proof.
  split; [reflexivity|].
  apply (lifetime_observers_accumulate ∅ busy). reflexivity.
Defined.

Lemma unmount_with_element_witness :
  (∅ : env) !! "observer" = None ∧
  ref_current (now (run [SetRef (Some 7); Commit None] (start ∅))) = Some 7 ∧
  is_Some (pending (run [SetRef (Some 7); Commit None] (start ∅))) ∧
  step (run [SetRef (Some 7); Commit None] (start ∅)) Unmount
  = {| now := now (run [SetRef (Some 7); Commit None] (start ∅));
       pending := None;
       raised := raised (run [SetRef (Some 7); Commit None] (start ∅))
                 ++ [ReferenceError "observer"] |} ∧
  step (step (run [SetRef (Some 7); Commit None] (start ∅)) Unmount) Unmount
  = step (run [SetRef (Some 7); Commit None] (start ∅)) Unmount.
Proof.
  split; [reflexivity|]. split; [reflexivity|].
  split; [exists ∅; reflexivity|].
  apply (unmount_with_element ∅ [SetRef (Some 7); Commit None] 7);
    [reflexivity | reflexivity | exists ∅; reflexivity].
Defined.

Lemma lifetime_without_element_witness :
  never_attached
    [Commit (Some half); Deliver 0 [seen]; SetRef None; Commit None; Unmount] = true ∧
  calls (now (run [Commit (Some half); Deliver 0 [seen]; SetRef None;
                   Commit None; Unmount] (start ∅))) = [] ∧
  observers (now (run [Commit (Some half); Deliver 0 [seen]; SetRef None;
                       Commit None; Unmount] (start ∅))) = [] ∧
  raised (run [Commit (Some half); Deliver 0 [seen]; SetRef None;
               Commit None; Unmount] (start ∅)) = [] ∧
  isVisible (now (run [Commit (Some half); Deliver 0 [seen]; SetRef None;
                       Commit None; Unmount] (start ∅))) = false ∧
  ref_current (now (run [Commit (Some half); Deliver 0 [seen]; SetRef None;
                         Commit None; Unmount] (start ∅))) = None ∧
  Forall (λ msg, msg = no_ref_warning)
    (console (now (run [Commit (Some half); Deliver 0 [seen]; SetRef None;
                        Commit None; Unmount] (start ∅)))).
Proof.
  split; [reflexivity|].
  apply (lifetime_without_element ∅
           [Commit (Some half); Deliver 0 [seen]; SetRef None; Commit None; Unmount]).
  reflexivity.
Defined.


Lemma observer_options_never_undefined_witness :
  "threshold" ∈ ["root"; "rootMargin"; "threshold"; "rest"] ∧
  get (observer_options {["threshold" := VUndefined]}) "threshold" ≠ VUndefined.
Proof.
  split; [by vm_compute; do 2 right; left|].
  apply (observer_options_never_undefined {["threshold" := VUndefined]} "threshold").
  do 2 right. left.
Defined.

(** A property written out as [undefined] and a property left out are
    passed alike. *)
Lemma observer_options_same_iff_witness :
  observer_options (<["threshold" := VUndefined]> {["delay" := VNum (Qmake 1 1)]})
  = observer_options {["delay" := VNum (Qmake 1 1)]}.
Proof.
  apply (observer_options_same_iff
           (<["threshold" := VUndefined]> {["delay" := VNum (Qmake 1 1)]})
           {["delay" := VNum (Qmake 1 1)]}).
  split; [reflexivity|]. split; [reflexivity|]. split; [reflexivity|].
  intros k Hk. apply lookup_insert_ne. intros <-. apply Hk.
  do 2 right. left.
Defined.

End LifetimeWitnesses.

(** ** Renders under the host's rules *)

Section HostSteps.
Import JS Hook Host.
Implicit Types (w : world) (l : Life.state) (s : state) (ev : event)
  (evs : list event) (g : env) (validate : validation) (arg : argument).

Lemma host_run_cons validate ev evs s :
  run validate (ev :: evs) s = run validate evs (step validate s ev).
Proof. reflexivity. Qed.

Lemma host_run_invariant validate (P : state → Prop) :
  (∀ s ev, P s → P (step validate s ev)) →
  ∀ evs s, P s → P (run validate evs s).
Proof.
  intros Hstep evs. induction evs as [|ev evs IH]; intros s Hs; [done|].
  rewrite host_run_cons. apply IH, Hstep, Hs.
Qed.

Lemma length_grown {A} (xs ys : list A) :
  Nat.eqb (length (xs ++ ys)) (length xs)
  = match ys with [] => true | _ :: _ => false end.
Proof.
  rewrite length_app. destruct ys as [|y ys]; cbn.
  - rewrite Nat.add_0_r. apply Nat.eqb_refl.
  - apply Nat.eqb_neq. lia.
Qed.

Lemma effect_in_detached validate options w :
  ref_current w = None →
  effect_in validate options w = Ok (console_warn no_ref_warning w, globals w).
Proof. intros H. unfold effect_in. rewrite H. by apply effect_detached. Qed.

Lemma effect_in_rejected validate options w el e :
  ref_current w = Some el → validate (observer_options options) = Some e →
  effect_in validate options w = Throw e.
Proof. intros H1 H2. unfold effect_in. by rewrite H1, H2. Qed.

Lemma effect_in_accepted validate options w el :
  ref_current w = Some el → validate (observer_options options) = None →
  effect_in validate options w = effect options w.
Proof. intros H1 H2. unfold effect_in. by rewrite H1, H2. Qed.

(** The cleanup part of a commit or a teardown, whatever the scope when
    the ref is empty, and in a scope without [observer] otherwise. *)
Lemma host_cleanup_detached l :
  ref_current (Life.now l) = None →
  ∃ w',
    Life.run_cleanup l
    = {| Life.now := w'; Life.pending := None; Life.raised := Life.raised l |} ∧
    console w' = (console (Life.now l) ++
                  match Life.pending l with
                  | Some _ => [no_ref_warning]
                  | None => []
                  end)%list ∧
    observers w' = observers (Life.now l) ∧ calls w' = calls (Life.now l) ∧
    isVisible w' = isVisible (Life.now l) ∧ ref_current w' = None ∧
    globals w' = globals (Life.now l).
Proof.
  intros Href. unfold Life.run_cleanup.
  destruct l as [w [ρ|] r]; cbn in *.
  - rewrite (cleanup_detached _ _ Href). eexists. split; [done|].
    by repeat split.
  - eexists. split; [done|]. cbn. rewrite app_nil_r. by repeat split.
Qed.

Lemma host_cleanup_attached l el :
  Life.observer_unbound l → ref_current (Life.now l) = Some el →
  Life.run_cleanup l
  = {| Life.now := Life.now l; Life.pending := None;
       Life.raised := Life.raised l ++
                      match Life.pending l with
                      | Some _ => [ReferenceError "observer"]
                      | None => []
                      end |}.
Proof.
  intros Hu Href. pose proof (run_cleanup_cases l Hu) as Hc.
  rewrite Href in Hc. destruct (Life.pending l) as [ρ|] eqn:Hp.
  - exact Hc.
  - rewrite Hc, app_nil_r. destruct l. cbn in *. by rewrite Hp.
Qed.

Lemma commit_detached validate arg s :
  ref_current (world_of s) = None →
  ∃ w',
    life (commit validate arg s)
    = {| Life.now := w'; Life.pending := Some (globals (world_of s));
         Life.raised := Life.raised (life s) |} ∧
    console w' = (console (world_of s) ++ skipped_warnings s)%list ∧
    observers w' = observers (world_of s) ∧ calls w' = calls (world_of s) ∧
    isVisible w' = isVisible (world_of s) ∧ ref_current w' = None ∧
    globals w' = globals (world_of s).
Proof.
  intros Href. unfold world_of in *.
  destruct (host_cleanup_detached (life s) Href)
    as (w1 & Hc & Econ & Eo & Ec & Ef & Er & Eg).
  cbn [commit life]. rewrite Hc. unfold run_effect. cbn [Life.now Life.raised].
  rewrite (effect_in_detached _ _ _ Er). eexists. split; [by rewrite Eg|].
  cbn. rewrite Econ, Eo, Ec, Ef, Eg. repeat split; try done.
  unfold skipped_warnings. destruct (Life.pending (life s)); cbn.
  - by rewrite <- app_assoc.
  - by rewrite app_nil_r.
Qed.

Lemma commit_rejected validate arg s el e :
  Life.observer_unbound (life s) → ref_current (world_of s) = Some el →
  validate (observer_options (default ∅ (passed arg))) = Some e →
  life (commit validate arg s)
  = {| Life.now := world_of s; Life.pending := None;
       Life.raised := Life.raised (life s) ++ (cleanup_error s ++ [e]) |}.
Proof.
  intros Hu Href Hv. unfold world_of in *. cbn [commit life].
  rewrite (host_cleanup_attached _ el Hu Href).
  unfold run_effect. cbn [Life.now Life.raised].
  rewrite (effect_in_rejected _ _ _ el e Href Hv).
  unfold cleanup_error. by rewrite <- app_assoc.
Qed.

Lemma commit_accepted validate arg s el :
  Life.observer_unbound (life s) → ref_current (world_of s) = Some el →
  validate (observer_options (default ∅ (passed arg))) = None →
  ∃ w',
    life (commit validate arg s)
    = {| Life.now := w'; Life.pending := Some (globals (world_of s));
         Life.raised := Life.raised (life s) ++ cleanup_error s |} ∧
    observers w'
    = (observers (world_of s) ++ [Life.observer_for (passed arg) el])%list ∧
    calls w'
    = (calls (world_of s) ++
       [New (observer_options (default ∅ (passed arg)));
        Observe (length (observers (world_of s))) el])%list ∧
    console w' = console (world_of s) ∧ isVisible w' = isVisible (world_of s) ∧
    ref_current w' = Some el ∧ globals w' = globals (world_of s).
Proof.
  intros Hu Href Hv. unfold world_of in *. cbn [commit life].
  rewrite (host_cleanup_attached _ el Hu Href).
  unfold run_effect. cbn [Life.now Life.raised].
  rewrite (effect_in_accepted _ _ _ el Href Hv).
  destruct (effect_attached_fields (default ∅ (passed arg)) _ el Href)
    as (w' & -> & Eo & Ec & Econ & Ef & Er & Eg).
  exists w'. split; [done|].
  by rewrite Eo, Ec, Econ, Ef, Er, Eg, Href.
Qed.

Lemma commit_alive validate arg s :
  alive (commit validate arg s)
  = Nat.eqb (length (Life.raised (life (commit validate arg s))))
      (length (Life.raised (life s))).
Proof. reflexivity. Qed.

Lemma host_callback entries s :
  ∃ w',
    run_callback entries s
    = {| Life.now := w'; Life.pending := Life.pending (life s);
         Life.raised := Life.raised (life s) |} ∧
    observers w' = observers (world_of s) ∧ calls w' = calls (world_of s) ∧
    ref_current w' = ref_current (world_of s) ∧
    globals w' = globals (world_of s) ∧
    isVisible w'
    = (if alive s then
         match entries with
         | entry :: _ => isIntersecting entry
         | [] => isVisible (world_of s)
         end
       else isVisible (world_of s)) ∧
    (Forall Life.hook_warning (console (world_of s)) →
     Forall Life.hook_warning (console w')).
Proof.
  unfold run_callback, Life.run_callback, world_of.
  destruct (alive s), entries as [|entry entries]; cbn;
    eexists; (split; [reflexivity|]); cbn;
    (do 5 (split; [done|])); intros H; try done.
  all: rewrite Forall_app, Forall_singleton; split; [done | by right].
Qed.

End HostSteps.

(** ** Stale deliveries, and the default parameter *)

Section HostClaims.
Import JS Hook Host.
Implicit Types (w : world) (s : state) (validate : validation) (arg : argument).






Lemma reruns_same_object s a (o : obj) :
  deps s = Some (Some a) → reruns s (Some (a, o)) = false.
Proof. intros E. unfold reruns. rewrite E. cbn. by rewrite Nat.eqb_refl. Qed.



End HostClaims.

(** ** Lifetimes under the host's rules *)

Section HostInvariants.
Import JS Hook Host.
Implicit Types (w : world) (s : state) (ev : event) (evs : list event)
  (g : env) (validate : validation) (arg : argument).

Lemma start_well_formed g : g !! "observer" = None → well_formed (start g).
Proof.
  intros Hg. split; [by apply start_unbound_in|].
  cbn. repeat split; try done; try lia.
Qed.

Lemma unbound_of_fields (l l' : Life.state) :
  Life.observer_unbound l →
  globals (Life.now l') = globals (Life.now l) →
  (Life.pending l' = None ∨ Life.pending l' = Some (globals (Life.now l))) →
  Life.observer_unbound l'.
Proof.
  intros [Hg _] Eg Hp. split; [by rewrite Eg|].
  intros ρ Hρ. destruct Hp as [Hp|Hp]; rewrite Hp in Hρ; [done|].
  by injection Hρ as <-.
Qed.

Lemma commit_well_formed validate arg s :
  alive s = true → well_formed s → well_formed (commit validate arg s).
Proof.
  intros Halive (Hu & Hs & Hc & Ho2 & Hr2 & Hp1 & _ & Ha).
  destruct (Ha Halive) as (Hr0 & Ho1 & Hp0). clear Ha.
  destruct (ref_current (world_of s)) as [el|] eqn:Href.
  - destruct (validate (observer_options (default ∅ (passed arg))))
      as [e|] eqn:Hv.
    + pose proof (commit_rejected validate arg s el e Hu Href Hv) as Hlife.
      unfold well_formed. rewrite commit_alive. unfold world_of in *.
      rewrite Hlife. cbn [Life.now Life.pending Life.raised].
      rewrite Hr0. cbn [app length].
      split; [by apply (unbound_of_fields (life s)); [| |left]|].
      do 3 (split; [done|]).
      unfold cleanup_error. destruct (Life.pending (life s)); cbn.
      * split; [lia|]. split; [by intros [? [=]]|]. by split.
      * split; [lia|]. split; [by intros [? [=]]|]. by split.
    + destruct (commit_accepted validate arg s el Hu Href Hv)
        as (w' & Hlife & Eo & Ec & _ & _ & _ & Eg).
      unfold well_formed. rewrite commit_alive. unfold world_of in *.
      rewrite Hlife. cbn [Life.now Life.pending Life.raised].
      rewrite Hr0, Eo, Ec, length_app. cbn [app length].
      split; [by apply (unbound_of_fields (life s)); [| |right]|].
      split; [apply Forall_app; split; [done|];
              apply Forall_singleton; by exists el|].
      split; [by rewrite creation_calls_snoc, Hc|].
      unfold cleanup_error.
      destruct (Life.pending (life s)) as [ρ|] eqn:Hp; cbn.
      * split; [lia|]. split; [lia|]. split; [lia|]. by split.
      * rewrite (Hp0 eq_refl). cbn.
        split; [lia|]. split; [lia|]. split; [lia|]. split; [lia|].
        intros _. split; [done|]. split; [lia | done].
  - destruct (commit_detached validate arg s Href)
      as (w' & Hlife & _ & Eo & Ec & _ & _ & Eg).
    unfold well_formed. rewrite commit_alive. unfold world_of in *.
    rewrite Hlife. cbn [Life.now Life.pending Life.raised].
    rewrite Hr0, Eo, Ec. cbn [length].
    split; [by apply (unbound_of_fields (life s)); [| |right]|].
    do 3 (split; [done|]). split; [lia|]. split; [lia|]. split; [done|].
    intros _. split; [done|]. split; [done|]. done.
Qed.

Lemma step_well_formed validate s ev :
  well_formed s → well_formed (step validate s ev).
Proof.
  intros Hwf. destruct ev as [r|arg| |o entries]; cbn [step].
  - destruct Hwf as ([Hg Hp] & Hrest). by split.
  - destruct (alive s) eqn:Halive; cbn [andb]; [|done].
    destruct (reruns s arg); [|done]. by apply commit_well_formed.
  - destruct Hwf as (Hu & Hs & Hc & Ho2 & Hr2 & Hp1 & Hq & _).
    unfold well_formed, world_of in *. cbn [life alive].
    destruct (ref_current (Life.now (life s))) as [el|] eqn:Href.
    + rewrite (host_cleanup_attached _ el Hu Href).
      cbn [Life.now Life.pending Life.raised].
      split; [by apply (unbound_of_fields (life s)); [| |left]|].
      do 3 (split; [done|]). rewrite length_app.
      split; [|split; [by intros [? [=]]|split; [|done]]].
      * destruct (Life.pending (life s)) as [ρ|]; cbn; [|lia].
        assert (length (Life.raised (life s)) ≤ 1)%nat by (apply Hp1; eauto).
        lia.
      * intros E. apply app_eq_nil in E as [E _]. by apply Hq.
    + destruct (host_cleanup_detached _ Href)
        as (w' & -> & _ & Eo & Ec & _ & _ & Eg).
      cbn [Life.now Life.pending Life.raised]. rewrite Eo, Ec.
      split; [by apply (unbound_of_fields (life s)); [| |left]|].
      do 4 (split; [done|]). split; [by intros [? [=]]|]. by split.
  - destruct (Life.serves o (world_of s)); [|done].
    destruct (host_callback entries s) as (w' & Hrc & Eo & Ec & _ & Eg & _).
    destruct Hwf as (Hu & Hrest).
    unfold well_formed, world_of in *. cbn [life alive]. rewrite Hrc.
    cbn [Life.now Life.pending Life.raised]. rewrite Eo, Ec.
    split; [|done].
    destruct Hu as [Hg Hp]. split; cbn; [by rewrite Eg | done].
Qed.

Lemma run_well_formed validate g evs :
  g !! "observer" = None → well_formed (run validate evs (start g)).
Proof.
  intros Hg. apply (host_run_invariant validate well_formed).
  - apply step_well_formed.
  - by apply start_well_formed.
Qed.

(** X3. In a host without a global [observer], whatever the browser
    accepts or rejects and whatever the lifetime, the calls that took
    effect on the platform are exactly, for each observer in the order
    of creation, its construction followed by one [observe] of its one
    target; a construction the browser rejects leaves no trace. *)
Theorem host_platform_calls validate g evs :
  g !! "observer" = None →
  Forall Life.single_target (observers (world_of (run validate evs (start g)))) ∧
  calls (world_of (run validate evs (start g)))
  = Life.creation_calls (observers (world_of (run validate evs (start g)))).
Proof.
  intros Hg. by destruct (run_well_formed validate g evs Hg) as (_ & ? & ? & _).
Qed.

(** X11. In such a host an instance never has more than two observers
    over its whole lifetime, and it has more than one only once an
    exception has reached React: a second observer can only come from
    the commit whose cleanup threw. *)
Theorem host_at_most_two_observers validate g evs :
  g !! "observer" = None →
  (length (observers (world_of (run validate evs (start g)))) ≤ 2)%nat ∧
  (Life.raised (life (run validate evs (start g))) = [] →
   (length (observers (world_of (run validate evs (start g)))) ≤ 1)%nat).
Proof.
  intros Hg.
  by destruct (run_well_formed validate g evs Hg) as (_ & _ & _ & H2 & _ & _ & Hq & _).
Qed.


End HostInvariants.

(** ** One render, at any point of a lifetime *)

Section HostRenders.
Import JS Hook Host.
Implicit Types (w : world) (s : state) (ev : event) (evs : list event)
  (g : env) (validate : validation) (arg : argument).

(** X4. In a host without a global [observer], at any point of a
    lifetime: when a mounted instance renders with an [options] object
    that is not the one of the last effect run, the ref holds an element
    and the browser accepts the options, the render appends exactly one
    observer, created with the options built from the argument and
    started on that element; earlier observers, the console and the flag
    stay as they were and a cleanup is left pending.  If a cleanup was
    pending its ReferenceError is raised and the instance is unmounted;
    otherwise nothing is raised and it stays mounted. *)
Theorem render_with_element_accepted validate g evs arg el :
  g !! "observer" = None →
  alive (run validate evs (start g)) = true →
  reruns (run validate evs (start g)) arg = true →
  ref_current (world_of (run validate evs (start g))) = Some el →
  validate (observer_options (default ∅ (passed arg))) = None →
  observers (world_of (step validate (run validate evs (start g)) (Render arg)))
  = (observers (world_of (run validate evs (start g)))
     ++ [Life.observer_for (passed arg) el])%list ∧
  calls (world_of (step validate (run validate evs (start g)) (Render arg)))
  = (calls (world_of (run validate evs (start g))) ++
     [New (observer_options (default ∅ (passed arg)));
      Observe (length (observers (world_of (run validate evs (start g))))) el])%list ∧
  console (world_of (step validate (run validate evs (start g)) (Render arg)))
  = console (world_of (run validate evs (start g))) ∧
  isVisible (world_of (step validate (run validate evs (start g)) (Render arg)))
  = isVisible (world_of (run validate evs (start g))) ∧
  Life.raised (life (step validate (run validate evs (start g)) (Render arg)))
  = cleanup_error (run validate evs (start g)) ∧
  is_Some (Life.pending
             (life (step validate (run validate evs (start g)) (Render arg)))) ∧
  alive (step validate (run validate evs (start g)) (Render arg))
  = match Life.pending (life (run validate evs (start g))) with
    | Some _ => false
    | None => true
    end ∧
  deps (step validate (run validate evs (start g)) (Render arg))
  = Some (identity arg).
Proof.
  intros Hg Halive Hrer Href Hv. set (s := run validate evs (start g)) in *.
  destruct (run_well_formed validate g evs Hg)
    as (Hu & _ & _ & _ & _ & _ & _ & Ha).
  fold s in Hu, Ha. destruct (Ha Halive) as (Hr0 & _).
  assert (Hstep : step validate s (Render arg) = commit validate arg s).
  { cbn [step]. by rewrite Halive, Hrer. }
  destruct (commit_accepted validate arg s el Hu Href Hv)
    as (w' & Hlife & Eo & Ec & Econ & Ef & _).
  assert (Hw : world_of (commit validate arg s) = w').
  { unfold world_of. by rewrite Hlife. }
  rewrite Hstep, Hw, commit_alive, Hlife. cbn [Life.raised Life.pending].
  rewrite Hr0. cbn [app length].
  do 5 (split; [done|]). split; [eauto|]. split; [|done].
  unfold cleanup_error. by destruct (Life.pending (life s)).
Qed.

(** X15. In such a host, when a mounted instance renders as above but
    the browser rejects the options, the constructor's exception reaches
    React after the ReferenceError of the pending cleanup, if there is
    one.  No observer is created, no platform call takes effect, nothing
    is logged, no cleanup is left pending, and the instance is
    unmounted: a later render does nothing. *)
Theorem render_with_element_rejected validate g evs arg el e :
  g !! "observer" = None →
  alive (run validate evs (start g)) = true →
  reruns (run validate evs (start g)) arg = true →
  ref_current (world_of (run validate evs (start g))) = Some el →
  validate (observer_options (default ∅ (passed arg))) = Some e →
  world_of (step validate (run validate evs (start g)) (Render arg))
  = world_of (run validate evs (start g)) ∧
  Life.raised (life (step validate (run validate evs (start g)) (Render arg)))
  = (cleanup_error (run validate evs (start g)) ++ [e])%list ∧
  Life.pending (life (step validate (run validate evs (start g)) (Render arg)))
  = None ∧
  alive (step validate (run validate evs (start g)) (Render arg)) = false ∧
  (∀ arg',
     step validate (step validate (run validate evs (start g)) (Render arg))
       (Render arg')
     = step validate (run validate evs (start g)) (Render arg)).
Proof.
  intros Hg Halive Hrer Href Hv. set (s := run validate evs (start g)) in *.
  destruct (run_well_formed validate g evs Hg)
    as (Hu & _ & _ & _ & _ & _ & _ & Ha).
  fold s in Hu, Ha. destruct (Ha Halive) as (Hr0 & _).
  assert (Hstep : step validate s (Render arg) = commit validate arg s).
  { cbn [step]. by rewrite Halive, Hrer. }
  pose proof (commit_rejected validate arg s el e Hu Href Hv) as Hlife.
  assert (Hdead : alive (commit validate arg s) = false).
  { rewrite commit_alive, Hlife. cbn [Life.raised]. rewrite length_grown.
    by destruct (cleanup_error s). }
  rewrite Hstep, Hdead. unfold world_of at 1. rewrite Hlife.
  cbn [Life.now Life.raised Life.pending]. rewrite Hr0. cbn [app].
  do 4 (split; [done|]). intros arg'. cbn [step]. by rewrite Hdead.
Qed.

Lemma cleanup_error_kind validate s :
  Forall (λ e, e = ReferenceError "observer" ∨ ∃ options, validate options = Some e)
    (cleanup_error s).
Proof.
  unfold cleanup_error. destruct (Life.pending (life s)); [|done].
  apply Forall_singleton. by left.
Qed.

Lemma skipped_warnings_kind s : Forall Life.hook_warning (skipped_warnings s).
Proof.
  unfold skipped_warnings.
  destruct (Life.pending (life s)); repeat constructor; by left.
Qed.

Lemma step_warnings_and_errors validate s ev :
  well_formed s ∧
  Forall Life.hook_warning (console (world_of s)) ∧
  Forall (λ e, e = ReferenceError "observer" ∨ ∃ options, validate options = Some e)
    (Life.raised (life s)) →
  well_formed (step validate s ev) ∧
  Forall Life.hook_warning (console (world_of (step validate s ev))) ∧
  Forall (λ e, e = ReferenceError "observer" ∨ ∃ options, validate options = Some e)
    (Life.raised (life (step validate s ev))).
Proof.
  intros (Hwf & Hcon & Herr). split; [by apply step_well_formed|].
  pose proof Hwf as (Hu & _).
  destruct ev as [r|arg| |o entries]; cbn [step].
  - done.
  - destruct (alive s && reruns s arg); [|done].
    destruct (ref_current (world_of s)) as [el|] eqn:Href.
    + destruct (validate (observer_options (default ∅ (passed arg))))
        as [e|] eqn:Hv.
      * pose proof (commit_rejected validate arg s el e Hu Href Hv) as Hlife.
        unfold world_of. rewrite Hlife. cbn [Life.now Life.raised].
        split; [done|]. rewrite !Forall_app, Forall_singleton.
        split; [done|]. split; [apply cleanup_error_kind | right; eauto].
      * destruct (commit_accepted validate arg s el Hu Href Hv)
          as (w' & Hlife & _ & _ & Econ & _).
        unfold world_of. rewrite Hlife. cbn [Life.now Life.raised].
        rewrite Econ. split; [done|]. rewrite Forall_app.
        split; [done | apply cleanup_error_kind].
    + destruct (commit_detached validate arg s Href)
        as (w' & Hlife & Econ & _).
      unfold world_of. rewrite Hlife. cbn [Life.now Life.raised].
      rewrite Econ. split; [|done]. rewrite Forall_app.
      split; [done | apply skipped_warnings_kind].
  - unfold world_of in *. cbn [life].
    destruct (ref_current (Life.now (life s))) as [el|] eqn:Href.
    + rewrite (host_cleanup_attached _ el Hu Href).
      cbn [Life.now Life.raised]. split; [done|]. rewrite Forall_app.
      split; [done|]. destruct (Life.pending (life s)); [|done].
      apply Forall_singleton. by left.
    + destruct (host_cleanup_detached _ Href) as (w' & -> & Econ & _).
      cbn [Life.now Life.raised]. rewrite Econ. split; [|done].
      rewrite Forall_app. split; [done|].
      destruct (Life.pending (life s)); [|done].
      apply Forall_singleton. by left.
  - destruct (Life.serves o (world_of s)); [|done].
    destruct (host_callback entries s) as (w' & Hrc & _ & _ & _ & _ & _ & Hkeep).
    unfold world_of in *. cbn [life]. rewrite Hrc. cbn [Life.now Life.raised].
    split; [by apply Hkeep | done].
Qed.

(** X10. In such a host, whatever the browser accepts or rejects and
    whatever the lifetime, the hook logs nothing but its two warnings,
    and every exception that reaches React is either the ReferenceError
    for [observer], thrown by the cleanup, or an exception the browser's
    constructor threw for the options it was given. *)
Theorem host_warnings_and_errors validate g evs :
  g !! "observer" = None →
  Forall Life.hook_warning (console (world_of (run validate evs (start g)))) ∧
  Forall (λ e, e = ReferenceError "observer" ∨ ∃ options, validate options = Some e)
    (Life.raised (life (run validate evs (start g)))).
Proof.
  intros Hg.
  enough (H : well_formed (run validate evs (start g)) ∧
    Forall Life.hook_warning (console (world_of (run validate evs (start g)))) ∧
    Forall (λ e, e = ReferenceError "observer" ∨ ∃ options, validate options = Some e)
      (Life.raised (life (run validate evs (start g))))) by apply H.
  apply (host_run_invariant validate (λ s, well_formed s ∧
    Forall Life.hook_warning (console (world_of s)) ∧
    Forall (λ e, e = ReferenceError "observer" ∨ ∃ options, validate options = Some e)
      (Life.raised (life s)))).
  - apply step_warnings_and_errors.
  - split; [by apply start_well_formed | by split].
Qed.

End HostRenders.

(** ** The hypotheses of the host's statements are met *)

Section HostWitnesses.
Import JS Hook Host.



Lemma host_platform_calls_witness :
  (∅ : env) !! "observer" = None ∧
  Forall Life.single_target
    (observers (world_of
       (run threshold_check
          [SetRef (Some 7); Render (Some (1, Life.half));
           Render (Some (2, twice_over)); Unmount] (start ∅)))) ∧
  calls (world_of
           (run threshold_check
              [SetRef (Some 7); Render (Some (1, Life.half));
               Render (Some (2, twice_over)); Unmount] (start ∅)))
  = Life.creation_calls
      (observers (world_of
         (run threshold_check
            [SetRef (Some 7); Render (Some (1, Life.half));
             Render (Some (2, twice_over)); Unmount] (start ∅)))).
Proof.
  split; [reflexivity|].
  apply (host_platform_calls threshold_check ∅
           [SetRef (Some 7); Render (Some (1, Life.half));
            Render (Some (2, twice_over)); Unmount]).
  reflexivity.
Defined.

Lemma host_at_most_two_observers_witness :
  (∅ : env) !! "observer" = None ∧
  (length (observers (world_of
     (run accepting
        [SetRef (Some 7); Render None; Render None; Render None; Unmount]
        (start ∅)))) ≤ 2)%nat ∧
  (Life.raised (life (run accepting
            [SetRef (Some 7); Render None; Render None; Render None; Unmount]
            (start ∅))) = [] →
   (length (observers (world_of
      (run accepting
         [SetRef (Some 7); Render None; Render None; Render None; Unmount]
         (start ∅)))) ≤ 1)%nat).
Proof.
  split; [reflexivity|].
  apply (host_at_most_two_observers accepting ∅
           [SetRef (Some 7); Render None; Render None; Render None; Unmount]).
  reflexivity.
Defined.


Lemma host_warnings_and_errors_witness :
  (∅ : env) !! "observer" = None ∧
  Forall Life.hook_warning
    (console (world_of (run threshold_check
       [Render None; SetRef (Some 7); Deliver 0 []; Render (Some (1, twice_over))]
       (start ∅)))) ∧
  Forall (λ e, e = ReferenceError "observer"
               ∨ ∃ options, threshold_check options = Some e)
    (Life.raised (life (run threshold_check
       [Render None; SetRef (Some 7); Deliver 0 []; Render (Some (1, twice_over))]
       (start ∅)))).
Proof.
  split; [reflexivity|].
  apply (host_warnings_and_errors threshold_check ∅
           [Render None; SetRef (Some 7); Deliver 0 []; Render (Some (1, twice_over))]).
  reflexivity.
Defined.

Lemma render_with_element_accepted_witness :
  (∅ : env) !! "observer" = None ∧
  alive (run threshold_check [SetRef (Some 7)] (start ∅)) = true ∧
  reruns (run threshold_check [SetRef (Some 7)] (start ∅))
    (Some (1, Life.half)) = true ∧
  ref_current (world_of (run threshold_check [SetRef (Some 7)] (start ∅)))
  = Some 7 ∧
  threshold_check (observer_options (default ∅ (passed (Some (1, Life.half)))))
  = None ∧
  observers (world_of (step threshold_check
                         (run threshold_check [SetRef (Some 7)] (start ∅))
                         (Render (Some (1, Life.half)))))
  = (observers (world_of (run threshold_check [SetRef (Some 7)] (start ∅)))
     ++ [Life.observer_for (passed (Some (1, Life.half))) 7])%list ∧
  calls (world_of (step threshold_check
                     (run threshold_check [SetRef (Some 7)] (start ∅))
                     (Render (Some (1, Life.half)))))
  = (calls (world_of (run threshold_check [SetRef (Some 7)] (start ∅))) ++
     [New (observer_options (default ∅ (passed (Some (1, Life.half)))));
      Observe (length (observers (world_of
                 (run threshold_check [SetRef (Some 7)] (start ∅))))) 7])%list ∧
  console (world_of (step threshold_check
                       (run threshold_check [SetRef (Some 7)] (start ∅))
                       (Render (Some (1, Life.half)))))
  = console (world_of (run threshold_check [SetRef (Some 7)] (start ∅))) ∧
  isVisible (world_of (step threshold_check
                         (run threshold_check [SetRef (Some 7)] (start ∅))
                         (Render (Some (1, Life.half)))))
  = isVisible (world_of (run threshold_check [SetRef (Some 7)] (start ∅))) ∧
  Life.raised (life (step threshold_check
                       (run threshold_check [SetRef (Some 7)] (start ∅))
                       (Render (Some (1, Life.half)))))
  = cleanup_error (run threshold_check [SetRef (Some 7)] (start ∅)) ∧
  is_Some (Life.pending
             (life (step threshold_check
                      (run threshold_check [SetRef (Some 7)] (start ∅))
                      (Render (Some (1, Life.half)))))) ∧
  alive (step threshold_check
           (run threshold_check [SetRef (Some 7)] (start ∅))
           (Render (Some (1, Life.half))))
  = match Life.pending (life (run threshold_check [SetRef (Some 7)] (start ∅))) with
    | Some _ => false
    | None => true
    end ∧
  deps (step threshold_check
          (run threshold_check [SetRef (Some 7)] (start ∅))
          (Render (Some (1, Life.half))))
  = Some (identity (Some (1, Life.half))).
Proof.
  do 5 (split; [reflexivity|]).
  apply (render_with_element_accepted threshold_check ∅ [SetRef (Some 7)]
           (Some (1, Life.half)) 7); reflexivity.
Defined.

Lemma render_with_element_rejected_witness :
  (∅ : env) !! "observer" = None ∧
  alive (run threshold_check [SetRef (Some 7); Render None] (start ∅)) = true ∧
  reruns (run threshold_check [SetRef (Some 7); Render None] (start ∅))
    (Some (1, twice_over)) = true ∧
  ref_current (world_of (run threshold_check [SetRef (Some 7); Render None] (start ∅)))
  = Some 7 ∧
  threshold_check (observer_options (default ∅ (passed (Some (1, twice_over)))))
  = Some (RangeError "threshold") ∧
  world_of (step threshold_check
              (run threshold_check [SetRef (Some 7); Render None] (start ∅))
              (Render (Some (1, twice_over))))
  = world_of (run threshold_check [SetRef (Some 7); Render None] (start ∅)) ∧
  Life.raised (life (step threshold_check
                       (run threshold_check [SetRef (Some 7); Render None] (start ∅))
                       (Render (Some (1, twice_over)))))
  = (cleanup_error (run threshold_check [SetRef (Some 7); Render None] (start ∅))
     ++ [RangeError "threshold"])%list ∧
  Life.pending (life (step threshold_check
                        (run threshold_check [SetRef (Some 7); Render None] (start ∅))
                        (Render (Some (1, twice_over)))))
  = None ∧
  alive (step threshold_check
           (run threshold_check [SetRef (Some 7); Render None] (start ∅))
           (Render (Some (1, twice_over)))) = false ∧
  (∀ arg',
     step threshold_check
       (step threshold_check
          (run threshold_check [SetRef (Some 7); Render None] (start ∅))
          (Render (Some (1, twice_over))))
       (Render arg')
     = step threshold_check
         (run threshold_check [SetRef (Some 7); Render None] (start ∅))
         (Render (Some (1, twice_over)))).
Proof.
  do 5 (split; [reflexivity|]).
  apply (render_with_element_rejected threshold_check ∅
           [SetRef (Some 7); Render None] (Some (1, twice_over)) 7
           (RangeError "threshold")); reflexivity.
Defined.

End HostWitnesses.
